(** * EE_FILE: a record store over a byte-addressable EEPROM

    Shallow embedding of [src/eefile.cpp] / [src/eefile.h] and the
    properties of its allocation-and-validity protocol.

    Conventions of the embedding.
    - [uint16_t] and [uint8_t] values are integers of [Z]; every place
      where the C++ code converts back to a fixed-width type is written
      out with [to_uint16] / [to_uint8].  Sums of two [uint16_t] operands
      are computed in [int] after promotion; the model takes [int] to be
      wide enough to hold them (the 32-bit cores the library lists), so
      only the conversions wrap.
    - The descriptor table is the array [files[EEFILE_MAX_FILES]] together
      with [fileCount], as in the class.
    - [::EEPROM] is the Arduino device object, which is not part of the
      library.  It is modelled as a byte memory indexed by the address
      that is handed to [EEPROM.read] / [EEPROM.write], together with the
      journal of the writes performed, in program order.  Its size is not
      known to the library, so no address is out of range for it.
    - Caller buffers ([const uint8_t*], [uint8_t*]) are lists of bytes.
    - Every [return] of a method is tagged with an [Outcome] naming the
      branch that was taken (the diagnostic it prints); [succeeded] gives
      the [bool] the C++ method returns. *)

From Stdlib Require Import ZArith Lia.
From Stdlib Require Import Strings.Byte.
From stdpp Require Import base tactics list list_numbers.

Local Open Scope Z_scope.

(** ** Fixed-width integers *)

Definition to_uint16 (x : Z) : Z := x mod 65536.
Definition to_uint8 (x : Z) : Z := x mod 256.

(** The values a [uint16_t] argument can take. *)
Definition is_uint16 (x : Z) : Prop := 0 <= x < 65536.

(** ** The device: [::EEPROM] *)

Module EEPROM.

Record t := mk {
  cells : Z -> byte;             (* contents, by address *)
  journal : list (Z * byte)      (* writes performed so far, oldest first *)
}.

Definition read (d : t) (idx : Z) : byte := cells d idx.

Definition write (d : t) (idx : Z) (val : byte) : t :=
  {| cells := fun a => if a =? idx then val else cells d a;
     journal := journal d ++ [(idx, val)] |}.

(** A device whose cells all hold [v] (a blank part reads [0xFF]). *)
Definition filled (v : byte) : t := {| cells := fun _ => v; journal := [] |}.

End EEPROM.

(** ** Counting loops

    [for_range lo hi body] is [for (uint16_t i = lo; i < hi; i++) body(i)].
    In every use [hi <= 65535], so the counter itself never wraps. *)

Fixpoint for_loop {St : Type} (trips : nat) (i : Z) (body : Z -> St -> St) (st : St) : St :=
  match trips with
  | O => st
  | S k => for_loop k (i + 1) body (body i st)
  end.

Definition for_range {St : Type} (lo hi : Z) (body : Z -> St -> St) (st : St) : St :=
  for_loop (Z.to_nat (hi - lo)) lo body st.

(** ** Data model ([eefile.h]) *)

(** [EEFileType] is a caller-defined enumeration; a value is its ordinal.
    The enumerators below are those of the shipped example sketch (the
    header itself lists [IIC_START], [KAL_MAN] and the terminator). *)
Definition EEFileType := Z.
Definition IIC_START : EEFileType := 0.
Definition KAL_MAN : EEFileType := 1.
Definition USER_SETTINGS : EEFileType := 2.
Definition END : EEFileType := 3.

Record FileMetadata := mkFile {
  type : EEFileType;
  maxSize : Z;        (* uint16_t, user bytes, marker not counted *)
  startAddr : Z;      (* uint16_t, address of the validity marker *)
  endAddr : Z;        (* uint16_t *)
  dataLen : Z;        (* uint16_t *)
  enabled : bool;
  modified : bool
}.

Definition EEFILE_MAX_FILES : Z := 10.
Definition EEFILE_SECTOR_SIZE : Z := 256.
Definition EEFILE_NUM_SECTORS : Z := 2.
Definition EEFILE_TOTAL_SIZE : Z := EEFILE_SECTOR_SIZE * EEFILE_NUM_SECTORS.

(** What [memset(files, 0, sizeof(files))] leaves in a slot. *)
Definition zero_file : FileMetadata :=
  {| type := 0; maxSize := 0; startAddr := 0; endAddr := 0; dataLen := 0;
     enabled := false; modified := false |}.

Record EEFILE := mkEE {
  files : list FileMetadata;     (* FileMetadata files[EEFILE_MAX_FILES] *)
  fileCount : Z;                 (* uint8_t *)
  is_enabled : bool
}.

(** [files[i]] *)
Definition file_at (s : EEFILE) (i : Z) : FileMetadata :=
  default zero_file (files s !! Z.to_nat i).

(** [files[i] = f] *)
Definition set_file (s : EEFILE) (i : Z) (f : FileMetadata) : EEFILE :=
  {| files := <[Z.to_nat i := f]> (files s);
     fileCount := fileCount s;
     is_enabled := is_enabled s |}.

(** Caller buffers: [data[i]] for a buffer holding at least [i+1] bytes.
    Reading or writing past the end of a buffer is undefined in C++; the
    properties below are stated for buffers that are long enough. *)
Definition byte_at (data : list byte) (i : Z) : byte :=
  default x00 (data !! Z.to_nat i).

(** The branch a method returned from. *)
Inductive Outcome :=
  | Done                (* return true *)
  | MaxFilesReached     (* "Max files (%d) reached!" *)
  | AlreadyRegistered   (* "Type %d already registered!" *)
  | NotEnoughSpace      (* "Not enough space" *)
  | EepromDisabled      (* "EEPROM disabled" *)
  | TypeNotFound        (* "Type %d not found" *)
  | TypeDisabled        (* "Type %d disabled" *)
  | DataTooLong         (* "Data %d > max %d" *)
  | DataInvalid.        (* "Type %d data invalid (marker: 0x%02X)" *)

Definition succeeded (o : Outcome) : bool :=
  match o with Done => true | _ => false end.

(** ** Operations ([eefile.cpp]) *)

Fixpoint findFileIndex_from (s : EEFILE) (ty : EEFileType) (i : Z) (trips : nat) : Z :=
  match trips with
  | O => -1
  | S k => if type (file_at s i) =? ty then i
           else findFileIndex_from s ty (i + 1) k
  end.

(** [for (i = 0; i < fileCount; i++) if (files[i].type == type) return i;
    return -1;] *)
Definition findFileIndex (s : EEFILE) (ty : EEFileType) : Z :=
  findFileIndex_from s ty 0 (Z.to_nat (fileCount s)).

Definition calculateNextAddr (s : EEFILE) : Z :=
  if fileCount s =? 0 then 0
  else
    let lastEnd := endAddr (file_at s (fileCount s - 1)) in
    to_uint16 (lastEnd + 1).

(** The constructor: empty table, store disabled. *)
Definition EEFILE_new : EEFILE :=
  {| files := replicate (Z.to_nat EEFILE_MAX_FILES) zero_file;
     fileCount := 0;
     is_enabled := false |}.

Definition set_is_enabled (s : EEFILE) (b : bool) : EEFILE :=
  {| files := files s; fileCount := fileCount s; is_enabled := b |}.

(** [begin()] also calls [EEPROM.begin()], which leaves the contents alone. *)
Definition begin (s : EEFILE) : EEFILE := set_is_enabled s true.
Definition enable (s : EEFILE) : EEFILE := set_is_enabled s true.
Definition disable (s : EEFILE) : EEFILE := set_is_enabled s false.
Definition isEnabled (s : EEFILE) : bool := is_enabled s.

Definition registerAuto (s : EEFILE) (ty : EEFileType) (maxSz : Z) : Outcome * EEFILE :=
  if fileCount s >=? EEFILE_MAX_FILES then (MaxFilesReached, s)
  else if negb (findFileIndex s ty =? -1) then (AlreadyRegistered, s)
  else
    let nextAddr := calculateNextAddr s in
    let actualSize := to_uint16 (maxSz + 1) in
    if nextAddr + actualSize >? EEFILE_TOTAL_SIZE then (NotEnoughSpace, s)
    else
      let f := {| type := ty;
                  maxSize := maxSz;
                  startAddr := nextAddr;
                  endAddr := to_uint16 (nextAddr + actualSize - 1);
                  dataLen := 0;
                  enabled := true;
                  modified := false |} in
      (Done,
       {| files := <[Z.to_nat (fileCount s) := f]> (files s);
          fileCount := to_uint8 (fileCount s + 1);
          is_enabled := is_enabled s |}).

(** What a method that touches the device leaves behind. *)
Record Effect := mkEffect {
  outcome : Outcome;
  store : EEFILE;
  device : EEPROM.t
}.

Definition with_write (f : FileMetadata) (len : Z) : FileMetadata :=
  {| type := type f; maxSize := maxSize f; startAddr := startAddr f;
     endAddr := endAddr f; dataLen := len; enabled := enabled f;
     modified := true |}.

Definition write (s : EEFILE) (dev : EEPROM.t) (ty : EEFileType)
    (data : list byte) (len : Z) : Effect :=
  if negb (is_enabled s) then mkEffect EepromDisabled s dev
  else
    let idx := findFileIndex s ty in
    if idx =? -1 then mkEffect TypeNotFound s dev
    else if negb (enabled (file_at s idx)) then mkEffect TypeDisabled s dev
    else if len >? maxSize (file_at s idx) then mkEffect DataTooLong s dev
    else
      let address := startAddr (file_at s idx) in
      let dataAddr := to_uint16 (address + 1) in
      let dev1 := EEPROM.write dev address x01 in
      let dev2 := for_range 0 len
                    (fun i d => EEPROM.write d (dataAddr + i) (byte_at data i)) dev1 in
      let dev3 := for_range len (maxSize (file_at s idx))
                    (fun i d => EEPROM.write d (dataAddr + i) xff) dev2 in
      mkEffect Done (set_file s idx (with_write (file_at s idx) len)) dev3.

(** [read] leaves the table and the device as they are; it returns the
    branch taken and the caller's buffer after the call. *)
Definition read (s : EEFILE) (dev : EEPROM.t) (ty : EEFileType)
    (data : list byte) (len : Z) : Outcome * list byte :=
  if negb (is_enabled s) then (EepromDisabled, data)
  else
    let idx := findFileIndex s ty in
    if idx =? -1 then (TypeNotFound, data)
    else if negb (enabled (file_at s idx)) then (TypeDisabled, data)
    else
      let address := startAddr (file_at s idx) in
      let dataAddr := to_uint16 (address + 1) in
      let validMarker := EEPROM.read dev address in
      if negb (Byte.eqb validMarker x01) then (DataInvalid, data)
      else
        let readLen := if len <? dataLen (file_at s idx) then len
                       else dataLen (file_at s idx) in
        (Done,
         for_range 0 readLen
           (fun i buf => <[Z.to_nat i := EEPROM.read dev (dataAddr + i)]> buf) data).

Definition with_erase (f : FileMetadata) : FileMetadata :=
  {| type := type f; maxSize := maxSize f; startAddr := startAddr f;
     endAddr := endAddr f; dataLen := 0; enabled := enabled f;
     modified := false |}.

Definition erase (s : EEFILE) (dev : EEPROM.t) (ty : EEFileType) : Effect :=
  if negb (is_enabled s) then mkEffect EepromDisabled s dev
  else
    let idx := findFileIndex s ty in
    if idx =? -1 then mkEffect TypeNotFound s dev
    else
      let address := startAddr (file_at s idx) in
      mkEffect Done (set_file s idx (with_erase (file_at s idx)))
               (EEPROM.write dev address x00).

Definition with_enabled (f : FileMetadata) (b : bool) : FileMetadata :=
  {| type := type f; maxSize := maxSize f; startAddr := startAddr f;
     endAddr := endAddr f; dataLen := dataLen f; enabled := b;
     modified := modified f |}.

Definition setFileEnabled (s : EEFILE) (ty : EEFileType) (b : bool) : EEFILE :=
  let idx := findFileIndex s ty in
  if negb (idx =? -1) then set_file s idx (with_enabled (file_at s idx) b)
  else s.

Definition isFileEnabled (s : EEFILE) (ty : EEFileType) : bool :=
  let idx := findFileIndex s ty in
  if negb (idx =? -1) then enabled (file_at s idx) else false.

Definition getFileDataLen (s : EEFILE) (ty : EEFileType) : Z :=
  let idx := findFileIndex s ty in
  if negb (idx =? -1) then dataLen (file_at s idx) else 0.

Definition isFileModified (s : EEFILE) (ty : EEFileType) : bool :=
  let idx := findFileIndex s ty in
  if negb (idx =? -1) then modified (file_at s idx) else false.

Definition with_modified_cleared (f : FileMetadata) : FileMetadata :=
  {| type := type f; maxSize := maxSize f; startAddr := startAddr f;
     endAddr := endAddr f; dataLen := dataLen f; enabled := enabled f;
     modified := false |}.

Definition clearModifiedFlag (s : EEFILE) (ty : EEFileType) : EEFILE :=
  let idx := findFileIndex s ty in
  if negb (idx =? -1) then set_file s idx (with_modified_cleared (file_at s idx))
  else s.

Definition isFileValid (s : EEFILE) (dev : EEPROM.t) (ty : EEFileType) : bool :=
  let idx := findFileIndex s ty in
  if idx =? -1 then false
  else
    let address := startAddr (file_at s idx) in
    let validMarker := EEPROM.read dev address in
    Byte.eqb validMarker x01.

(** [setFileValid] assigns to no member of the class: the table it leaves
    is the one it was called on. *)
Definition setFileValid (s : EEFILE) (dev : EEPROM.t) (ty : EEFileType)
    (valid : bool) : Effect :=
  let idx := findFileIndex s ty in
  if idx =? -1 then mkEffect TypeNotFound s dev
  else
    let address := startAddr (file_at s idx) in
    let marker := if valid then x01 else x00 in
    mkEffect Done s (EEPROM.write dev address marker).

Definition getFileAddr (s : EEFILE) (ty : EEFileType) : Z :=
  let idx := findFileIndex s ty in
  if negb (idx =? -1) then startAddr (file_at s idx) else 0.

(** ** Definitions used to state the properties *)

(** The bodies of the two device loops of [write] and of the copy loop of
    [read]. *)
Definition write_step (base : Z) (val : Z -> byte) (i : Z) (d : EEPROM.t) : EEPROM.t :=
  EEPROM.write d (base + i) (val i).

Definition fill_step (src : Z -> byte) (i : Z) (buf : list byte) : list byte :=
  <[Z.to_nat i := src i]> buf.

(** The three device steps of a successful [write], for a record whose
    marker is at [a] and whose capacity is [m]. *)
Definition store_record (dev : EEPROM.t) (a len m : Z) (data : list byte) : EEPROM.t :=
  for_range len m (write_step (a + 1) (fun _ => xff))
    (for_range 0 len (write_step (a + 1) (byte_at data))
       (EEPROM.write dev a x01)).

(** The descriptor that the methods use for identifier [ty]. *)
Definition record_of (s : EEFILE) (ty : EEFileType) : FileMetadata :=
  file_at s (findFileIndex s ty).

(** *** States the store can be in *)

(** Everything a program can do to the table through the public methods,
    starting from the constructor.  The device contents never influence
    the table, so devices and payloads are arbitrary here; [read],
    [setFileValid] and the accessors leave the table as it is. *)
Inductive reachable : EEFILE -> Prop :=
  | reach_new : reachable EEFILE_new
  | reach_begin s : reachable s -> reachable (begin s)
  | reach_enable s : reachable s -> reachable (enable s)
  | reach_disable s : reachable s -> reachable (disable s)
  | reach_registerAuto s ty maxSz :
      reachable s -> is_uint16 maxSz -> reachable (registerAuto s ty maxSz).2
  | reach_write s dev ty data len :
      reachable s -> is_uint16 len -> reachable (store (write s dev ty data len))
  | reach_erase s dev ty :
      reachable s -> reachable (store (erase s dev ty))
  | reach_setFileEnabled s ty b :
      reachable s -> reachable (setFileEnabled s ty b)
  | reach_clearModifiedFlag s ty :
      reachable s -> reachable (clearModifiedFlag s ty).

(** What holds of every descriptor that was admitted. *)
Record desc_ok (f : FileMetadata) : Prop := {
  ok_maxSize : is_uint16 (maxSize f);
  ok_start : 0 <= startAddr f;
  ok_fits : startAddr f + to_uint16 (maxSize f + 1) <= EEFILE_TOTAL_SIZE;
  ok_end : endAddr f = to_uint16 (startAddr f + to_uint16 (maxSize f + 1) - 1);
  ok_dataLen : 0 <= dataLen f <= maxSize f
}.

Record table_ok (s : EEFILE) : Prop := {
  ok_slots : length (files s) = Z.to_nat EEFILE_MAX_FILES;
  ok_count : 0 <= fileCount s <= EEFILE_MAX_FILES;
  ok_desc : forall i, 0 <= i < fileCount s -> desc_ok (file_at s i);
  ok_first : 0 < fileCount s -> startAddr (file_at s 0) = 0;
  ok_chain : forall i, 0 < i < fileCount s ->
    startAddr (file_at s i) = to_uint16 (endAddr (file_at s (i - 1)) + 1)
}.

(** Tables none of whose admitted records has the one size that wraps. *)
Definition plain_sizes (s : EEFILE) : Prop :=
  forall i, 0 <= i < fileCount s -> maxSize (file_at s i) <> 65535.

(** *** Registration as the specification words it

    The three checks in order, with [startAddress + maxPayloadSize + 1]
    taken as a number, and the appended descriptor ending at
    [startAddress + maxPayloadSize]. *)

Definition spec_next_free (s : EEFILE) : Z :=
  if fileCount s =? 0 then 0 else endAddr (file_at s (fileCount s - 1)) + 1.

Definition present (s : EEFILE) (ty : EEFileType) : Prop :=
  exists i, 0 <= i < fileCount s /\ type (file_at s i) = ty.

Inductive register_spec (s : EEFILE) (ty : EEFileType) (maxSz : Z) :
    Outcome -> EEFILE -> Prop :=
  | spec_capacity :
      fileCount s >= EEFILE_MAX_FILES ->
      register_spec s ty maxSz MaxFilesReached s
  | spec_duplicate :
      fileCount s < EEFILE_MAX_FILES -> present s ty ->
      register_spec s ty maxSz AlreadyRegistered s
  | spec_no_space :
      fileCount s < EEFILE_MAX_FILES -> ~ present s ty ->
      spec_next_free s + maxSz + 1 > EEFILE_TOTAL_SIZE ->
      register_spec s ty maxSz NotEnoughSpace s
  | spec_admit :
      fileCount s < EEFILE_MAX_FILES -> ~ present s ty ->
      spec_next_free s + maxSz + 1 <= EEFILE_TOTAL_SIZE ->
      register_spec s ty maxSz Done
        {| files := <[Z.to_nat (fileCount s) :=
                      {| type := ty;
                         maxSize := maxSz;
                         startAddr := spec_next_free s;
                         endAddr := spec_next_free s + maxSz;
                         dataLen := 0;
                         enabled := true;
                         modified := false |}]> (files s);
           fileCount := fileCount s + 1;
           is_enabled := is_enabled s |}.

(** *** Scenarios *)

(** The sketch of the example: [EE_INIT()], then three registrations. *)
Definition sketch_store : EEFILE :=
  (registerAuto
     (registerAuto
        (registerAuto (enable (begin EEFILE_new)) IIC_START 1).2
        KAL_MAN 4).2
     USER_SETTINGS 16).2.

(** The sketch's first write: [0x42] to [IIC_START] on a blank device. *)
Definition sketch_written : Effect :=
  write sketch_store (EEPROM.filled xff) IIC_START [x42] 1.

(** A table that was filled without [begin()] or [enable()]: the
    constructor leaves the store-wide switch off, and [registerAuto] does
    not look at it. *)
Definition unstarted_store : EEFILE := (registerAuto EEFILE_new IIC_START 1).2.

(** The sketch's table with [IIC_START] switched off ([EE_DISABLE]). *)
Definition sketch_disabled : EEFILE := setFileEnabled sketch_store IIC_START false.

(** The sketch after its first write, with [IIC_START] switched off. *)
Definition written_disabled : EEFILE :=
  setFileEnabled (store sketch_written) IIC_START false.

(** The table after [registerAuto(IIC_START, 65535)] and
    [registerAuto(KAL_MAN, 4)] on a started store. *)
Definition overlapping_store : EEFILE :=
  (registerAuto (registerAuto (enable (begin EEFILE_new)) IIC_START 65535).2 KAL_MAN 4).2.

(** The table after [registerAuto(IIC_START, 1)] and
    [registerAuto(KAL_MAN, 65535)] on a started store. *)
Definition wrapped_store : EEFILE :=
  (registerAuto (registerAuto (enable (begin EEFILE_new)) IIC_START 1).2 KAL_MAN 65535).2.

(** *** Definitions for the further properties *)

(** Where a record lives and what it is called: the fields that
    [registerAuto] sets and no other method assigns. *)
Definition placement (f : FileMetadata) : EEFileType * Z * Z * Z :=
  (type f, maxSize f, startAddr f, endAddr f).

(** One call of a public method that can change the table. *)
Inductive step : EEFILE -> EEFILE -> Prop :=
  | step_begin s : step s (begin s)
  | step_enable s : step s (enable s)
  | step_disable s : step s (disable s)
  | step_registerAuto s ty maxSz :
      is_uint16 maxSz -> step s (registerAuto s ty maxSz).2
  | step_write s dev ty data len :
      is_uint16 len -> step s (store (write s dev ty data len))
  | step_erase s dev ty : step s (store (erase s dev ty))
  | step_setFileEnabled s ty b : step s (setFileEnabled s ty b)
  | step_clearModifiedFlag s ty : step s (clearModifiedFlag s ty).

(** No two registered slots hold the same identifier. *)
Definition ids_unique (s : EEFILE) : Prop :=
  forall i j, 0 <= i < fileCount s -> 0 <= j < fileCount s ->
    type (file_at s i) = type (file_at s j) -> i = j.

(** Bytes charged to the first [n] slots: [maxSize + 1] each (the marker
    byte is the [+ 1]). *)
Fixpoint charged (s : EEFILE) (n : nat) : Z :=
  match n with
  | O => 0
  | S k => charged s k + (maxSize (file_at s (Z.of_nat k)) + 1)
  end.

Definition used_bytes (s : EEFILE) : Z := charged s (Z.to_nat (fileCount s)).

(** The byte that a successful [write] of [data[0..len)] puts at offset
    [j] of the record: marker, payload, padding. *)
Definition record_image (data : list byte) (len : Z) (j : Z) : byte :=
  if j =? 0 then x01
  else if j <=? len then byte_at data (j - 1)
  else xff.

(** The device after the first [k] calls of [EEPROM.write] that a
    successful [write] makes for a record whose marker is at [a]: what is
    on the part if the run stops there. *)
Definition write_prefix (dev : EEPROM.t) (a len : Z) (data : list byte) (k : nat) : EEPROM.t :=
  for_loop k 0 (write_step a (record_image data len)) dev.

(** The idiom of the example sketch and of the README:
    [EE_WRITE(type, data, len); EE_SET_VALID(type, true);] -- the result of
    the write is not looked at. *)
Definition write_and_validate (s : EEFILE) (dev : EEPROM.t) (ty : EEFileType)
    (data : list byte) (len : Z) : Effect :=
  let w := write s dev ty data len in
  setFileValid (store w) (device w) ty true.

(** * Properties *)

(** ** Fixed-width conversions *)

Lemma to_uint16_small x : is_uint16 x -> to_uint16 x = x.
Proof. unfold is_uint16, to_uint16. intros H. apply Z.mod_small. lia. Qed.

Lemma to_uint16_range x : is_uint16 (to_uint16 x).
Proof. unfold is_uint16, to_uint16. apply Z.mod_pos_bound. lia. Qed.

Lemma to_uint16_wrap : to_uint16 65536 = 0.
Proof. reflexivity. Qed.

Lemma to_uint16_pred x : 0 <= x < 65536 ->
  to_uint16 (x - 1) = if x =? 0 then 65535 else x - 1.
Proof.
  intros H. unfold to_uint16. destruct (Z.eqb_spec x 0) as [->|Hx]; [reflexivity|].
  apply Z.mod_small. lia.
Qed.

(** ** Loops that write the device *)

Section WriteLoop.
Variable base : Z.
Variable val : Z -> byte.

Lemma write_loop_journal n : forall i d,
  EEPROM.journal (for_loop n i (write_step base val) d) =
  EEPROM.journal d ++ ((fun j => (base + j, val j)) <$> seqZ i (Z.of_nat n)).
Proof.
  induction n as [|n IH]; intros i d.
  - simpl. by rewrite app_nil_r.
  - cbn [for_loop]. rewrite IH. rewrite (seqZ_cons i (Z.of_nat (S n))) by lia.
    cbn [write_step EEPROM.write EEPROM.journal fmap list_fmap].
    rewrite <- app_assoc. cbn [app].
    replace (Z.pred (Z.of_nat (S n))) with (Z.of_nat n) by lia.
    replace (Z.succ i) with (i + 1) by lia. reflexivity.
Qed.

Lemma write_loop_outside n : forall i d a,
  a < base + i \/ base + i + Z.of_nat n <= a ->
  EEPROM.cells (for_loop n i (write_step base val) d) a = EEPROM.cells d a.
Proof.
  induction n as [|n IH]; intros i d a Ha; [reflexivity|].
  cbn [for_loop]. rewrite IH by lia.
  cbn [write_step EEPROM.write EEPROM.cells].
  destruct (Z.eqb_spec a (base + i)); [lia | reflexivity].
Qed.

Lemma write_loop_inside n : forall i d j,
  i <= j < i + Z.of_nat n ->
  EEPROM.cells (for_loop n i (write_step base val) d) (base + j) = val j.
Proof.
  induction n as [|n IH]; intros i d j Hj; [lia|].
  cbn [for_loop]. destruct (Z.eq_dec j i) as [->|Hne].
  - rewrite write_loop_outside by lia.
    cbn [write_step EEPROM.write EEPROM.cells]. by rewrite Z.eqb_refl.
  - apply IH. lia.
Qed.
End WriteLoop.

(** ** The loop that fills the caller's buffer *)

Section FillLoop.
Variable src : Z -> byte.

Lemma fill_loop_length n : forall i buf,
  length (for_loop n i (fill_step src) buf) = length buf.
Proof.
  induction n as [|n IH]; intros i buf; [reflexivity|].
  cbn [for_loop]. rewrite IH. apply length_insert.
Qed.

Lemma fill_loop_outside n : forall i buf (k : nat),
  0 <= i ->
  Z.of_nat k < i \/ i + Z.of_nat n <= Z.of_nat k ->
  for_loop n i (fill_step src) buf !! k = buf !! k.
Proof.
  induction n as [|n IH]; intros i buf k Hi Hk; [reflexivity|].
  cbn [for_loop]. rewrite IH by lia.
  unfold fill_step. apply list_lookup_insert_ne. lia.
Qed.

Lemma fill_loop_inside n : forall i buf (k : nat),
  0 <= i ->
  i <= Z.of_nat k < i + Z.of_nat n ->
  (k < length buf)%nat ->
  for_loop n i (fill_step src) buf !! k = Some (src (Z.of_nat k)).
Proof.
  induction n as [|n IH]; intros i buf k Hi Hk Hlen; [lia|].
  cbn [for_loop]. destruct (Z.eq_dec (Z.of_nat k) i) as [<-|Hne].
  - rewrite fill_loop_outside by lia. unfold fill_step.
    rewrite Nat2Z.id. by apply list_lookup_insert_eq.
  - apply IH; [lia | lia |]. unfold fill_step. by rewrite length_insert.
Qed.
End FillLoop.

(** ** Looking a record up *)

Lemma findFileIndex_from_spec s ty n : forall i,
  let r := findFileIndex_from s ty i n in
  (r = -1 /\ forall j, i <= j < i + Z.of_nat n -> type (file_at s j) <> ty) \/
  (i <= r < i + Z.of_nat n /\ type (file_at s r) = ty /\
   forall j, i <= j < r -> type (file_at s j) <> ty).
Proof.
  induction n as [|n IH]; intros i; cbn zeta.
  - left. split; [reflexivity | lia].
  - cbn [findFileIndex_from]. destruct (Z.eqb_spec (type (file_at s i)) ty) as [He|Hne].
    + right. split; [lia|]. split; [exact He | lia].
    + destruct (IH (i + 1)) as [[Hr Hall]|(Hr & Hty & Hall)].
      * left. split; [exact Hr|]. intros j Hj.
        destruct (Z.eq_dec j i) as [->|]; [exact Hne | apply Hall; lia].
      * right. split; [lia|]. split; [exact Hty|]. intros j Hj.
        destruct (Z.eq_dec j i) as [->|]; [exact Hne | apply Hall; lia].
Qed.

Lemma findFileIndex_found s ty :
  findFileIndex s ty <> -1 ->
  0 <= findFileIndex s ty < fileCount s /\
  type (file_at s (findFileIndex s ty)) = ty.
Proof.
  unfold findFileIndex. intros Hne.
  destruct (findFileIndex_from_spec s ty (Z.to_nat (fileCount s)) 0)
    as [[Hr _]|(Hr & Hty & _)]; [contradiction|].
  split; [lia | exact Hty].
Qed.

Lemma findFileIndex_first s ty j :
  findFileIndex s ty <> -1 -> 0 <= j < findFileIndex s ty ->
  type (file_at s j) <> ty.
Proof.
  unfold findFileIndex. intros Hne Hj.
  destruct (findFileIndex_from_spec s ty (Z.to_nat (fileCount s)) 0)
    as [[Hr _]|(_ & _ & Hall)]; [contradiction|].
  by apply Hall.
Qed.

Lemma findFileIndex_absent s ty j :
  findFileIndex s ty = -1 -> 0 <= j < fileCount s ->
  type (file_at s j) <> ty.
Proof.
  unfold findFileIndex. intros He Hj.
  destruct (findFileIndex_from_spec s ty (Z.to_nat (fileCount s)) 0)
    as [[_ Hall]|(Hr & _ & _)]; [apply Hall; lia | lia].
Qed.

(** The search looks at [fileCount] and at the [type] fields only. *)
Lemma findFileIndex_from_ext s s' ty n : forall i,
  (forall j, type (file_at s' j) = type (file_at s j)) ->
  findFileIndex_from s' ty i n = findFileIndex_from s ty i n.
Proof.
  induction n as [|n IH]; intros i Hty; [reflexivity|].
  cbn [findFileIndex_from]. rewrite Hty. by rewrite IH.
Qed.

Lemma findFileIndex_ext s s' ty :
  fileCount s' = fileCount s ->
  (forall j, type (file_at s' j) = type (file_at s j)) ->
  findFileIndex s' ty = findFileIndex s ty.
Proof.
  intros Hc Hty. unfold findFileIndex. rewrite Hc. by apply findFileIndex_from_ext.
Qed.

(** ** Reading and updating table slots *)

Lemma file_at_set_file_eq s i f :
  (Z.to_nat i < length (files s))%nat -> file_at (set_file s i f) i = f.
Proof.
  intros Hi. unfold file_at, set_file. cbn [files].
  by rewrite list_lookup_insert_eq.
Qed.

Lemma file_at_set_file_ne s i j f :
  Z.to_nat i <> Z.to_nat j -> file_at (set_file s i f) j = file_at s j.
Proof.
  intros Hne. unfold file_at, set_file. cbn [files].
  by rewrite list_lookup_insert_ne.
Qed.

Lemma file_at_set_file_field {A} (proj : FileMetadata -> A) s i f j :
  proj f = proj (file_at s i) ->
  proj (file_at (set_file s i f) j) = proj (file_at s j).
Proof.
  intros Hp. destruct (decide (Z.to_nat i = Z.to_nat j)) as [He|Hne].
  - unfold file_at in *. unfold set_file. cbn [files]. rewrite <- He.
    destruct (decide (Z.to_nat i < length (files s))%nat) as [Hlt|Hge].
    + by rewrite list_lookup_insert_eq.
    + by rewrite list_insert_ge by lia.
  - by rewrite file_at_set_file_ne.
Qed.

Lemma findFileIndex_set_file s i f ty :
  type f = type (file_at s i) ->
  findFileIndex (set_file s i f) ty = findFileIndex s ty.
Proof.
  intros Hty. apply findFileIndex_ext; [reflexivity|].
  intros j. by apply (file_at_set_file_field type).
Qed.

(** ** Every reachable table is well formed *)

Lemma table_ok_new : table_ok EEFILE_new.
Proof.
  split; cbn [files fileCount EEFILE_new]; try lia.
  - by rewrite length_replicate.
  - unfold EEFILE_MAX_FILES. lia.
Qed.

Lemma table_ok_set_is_enabled s b : table_ok s -> table_ok (set_is_enabled s b).
Proof. intros [H1 H2 H3 H4 H5]. by split. Qed.

(** Replacing a descriptor by one with the same placement keeps the table
    well formed. *)
Lemma table_ok_set_file s i f :
  table_ok s -> 0 <= i < fileCount s ->
  maxSize f = maxSize (file_at s i) ->
  startAddr f = startAddr (file_at s i) ->
  endAddr f = endAddr (file_at s i) ->
  0 <= dataLen f <= maxSize f ->
  table_ok (set_file s i f).
Proof.
  intros [H1 H2 H3 H4 H5] Hi Hm Hs He Hd.
  split; cbn [fileCount files set_file].
  - by rewrite length_insert.
  - exact H2.
  - intros j Hj. destruct (Z.eq_dec i j) as [<-|Hne].
    + rewrite file_at_set_file_eq by (unfold EEFILE_MAX_FILES in *; lia).
      destruct (H3 i Hi) as [G1 G2 G3 G4 G5].
      split; rewrite ?Hm, ?Hs, ?He; try done. by rewrite <- Hm.
    + rewrite file_at_set_file_ne by lia. by apply H3.
  - intros Hc. rewrite (file_at_set_file_field startAddr) by done. by apply H4.
  - intros j Hj. rewrite (file_at_set_file_field startAddr) by done.
    rewrite (file_at_set_file_field endAddr) by done. by apply H5.
Qed.

Lemma EEFILE_TOTAL_SIZE_eq : EEFILE_TOTAL_SIZE = 512.
Proof. reflexivity. Qed.

(** One past the end of an admitted record is its start plus the size
    that was charged for it. *)
Lemma next_after_end st m :
  0 <= st -> is_uint16 m -> st + to_uint16 (m + 1) <= 512 ->
  to_uint16 (to_uint16 (st + to_uint16 (m + 1) - 1) + 1) = st + to_uint16 (m + 1).
Proof.
  unfold is_uint16, to_uint16. intros Hst Hm Hfit.
  Z.div_mod_to_equations. lia.
Qed.

(** The next free address is where the last admitted record stops. *)
Lemma calculateNextAddr_range s :
  table_ok s -> 0 <= calculateNextAddr s <= EEFILE_TOTAL_SIZE.
Proof.
  intros [H1 H2 H3 H4 H5]. unfold calculateNextAddr.
  rewrite EEFILE_TOTAL_SIZE_eq.
  destruct (Z.eqb_spec (fileCount s) 0) as [|Hc]; [lia|].
  destruct (H3 (fileCount s - 1)) as [G1 G2 G3 G4 G5]; [lia|].
  rewrite EEFILE_TOTAL_SIZE_eq in G3.
  cbn zeta. rewrite G4, next_after_end by done.
  pose proof (to_uint16_range (maxSize (file_at s (fileCount s - 1)) + 1)) as Hr.
  unfold is_uint16 in Hr. lia.
Qed.

Lemma table_ok_registerAuto s ty maxSz :
  table_ok s -> is_uint16 maxSz -> table_ok (registerAuto s ty maxSz).2.
Proof.
  intros Hok Hm. pose proof (calculateNextAddr_range s Hok) as Hn.
  destruct Hok as [H1 H2 H3 H4 H5]. unfold registerAuto.
  destruct (Z.geb_spec (fileCount s) EEFILE_MAX_FILES) as [Hfull|Hroom];
    [by split|].
  destruct (negb _); [by split|]. cbn zeta.
  destruct (Z.gtb_spec (calculateNextAddr s + to_uint16 (maxSz + 1)) EEFILE_TOTAL_SIZE)
    as [Hbig|Hfit]; [by split|].
  cbn [snd].
  set (f := mkFile _ _ _ _ _ _ _).
  assert (Hcnt : to_uint8 (fileCount s + 1) = fileCount s + 1).
  { unfold to_uint8, EEFILE_MAX_FILES in *. apply Z.mod_small. lia. }
  rewrite Hcnt. set (s' := mkEE _ _ _).
  assert (Hat : forall j, 0 <= j ->
    file_at s' j = if j =? fileCount s then f else file_at s j).
  { intros j Hj. unfold file_at, s'. cbn [files].
    destruct (Z.eqb_spec j (fileCount s)) as [->|Hne].
    - rewrite list_lookup_insert_eq; [done|]. unfold EEFILE_MAX_FILES in *. lia.
    - rewrite list_lookup_insert_ne; [done | lia]. }
  split; [unfold s'; cbn [files]; by rewrite length_insert
         | unfold s'; cbn [fileCount]; lia | ..];
    replace (fileCount s') with (fileCount s + 1) by reflexivity.
  - intros i Hi. rewrite Hat by lia.
    destruct (Z.eqb_spec i (fileCount s)) as [->|Hne]; [|apply H3; lia].
    subst f. split; cbn [maxSize startAddr endAddr dataLen]; try done; try lia.
    unfold is_uint16 in Hm. lia.
  - intros _. rewrite Hat by lia.
    destruct (Z.eqb_spec 0 (fileCount s)) as [He|Hne]; [|apply H4; lia].
    subst f. cbn [startAddr]. unfold calculateNextAddr. by rewrite <- He.
  - intros i Hi. rewrite !Hat by lia.
    destruct (Z.eqb_spec (i - 1) (fileCount s)) as [He|_]; [lia|].
    destruct (Z.eqb_spec i (fileCount s)) as [->|Hne]; [|apply H5; lia].
    subst f. cbn [startAddr]. unfold calculateNextAddr.
    destruct (Z.eqb_spec (fileCount s) 0); [lia | reflexivity].
Qed.

Lemma table_ok_write s dev ty data len :
  table_ok s -> is_uint16 len -> table_ok (store (write s dev ty data len)).
Proof.
  intros Hok Hlen. unfold write.
  destruct (negb (is_enabled s)); [done|]. cbn zeta.
  destruct (Z.eqb_spec (findFileIndex s ty) (-1)) as [|Hidx]; [done|].
  destruct (negb (enabled _)); [done|].
  destruct (Z.gtb_spec len (maxSize (file_at s (findFileIndex s ty)))); [done|].
  cbn [store]. apply table_ok_set_file; try done.
  - by apply findFileIndex_found.
  - cbn [dataLen maxSize with_write]. unfold is_uint16 in Hlen. lia.
Qed.

Lemma table_ok_erase s dev ty : table_ok s -> table_ok (store (erase s dev ty)).
Proof.
  intros Hok. unfold erase.
  destruct (negb (is_enabled s)); [done|]. cbn zeta.
  destruct (Z.eqb_spec (findFileIndex s ty) (-1)) as [|Hidx]; [done|].
  cbn [store]. pose proof (findFileIndex_found s ty Hidx) as [Hr _].
  apply table_ok_set_file; try done.
  cbn [dataLen maxSize with_erase].
  destruct (ok_desc s Hok _ Hr) as [[G _] _ _ _ _]. lia.
Qed.

Lemma table_ok_setFileEnabled s ty b : table_ok s -> table_ok (setFileEnabled s ty b).
Proof.
  intros Hok. unfold setFileEnabled. cbn zeta.
  destruct (Z.eqb_spec (findFileIndex s ty) (-1)) as [|Hidx]; [done|].
  cbn [negb]. pose proof (findFileIndex_found s ty Hidx) as [Hr _].
  apply table_ok_set_file; try done.
  apply (ok_dataLen _ (ok_desc s Hok _ Hr)).
Qed.

Lemma table_ok_clearModifiedFlag s ty : table_ok s -> table_ok (clearModifiedFlag s ty).
Proof.
  intros Hok. unfold clearModifiedFlag. cbn zeta.
  destruct (Z.eqb_spec (findFileIndex s ty) (-1)) as [|Hidx]; [done|].
  cbn [negb]. pose proof (findFileIndex_found s ty Hidx) as [Hr _].
  apply table_ok_set_file; try done.
  apply (ok_dataLen _ (ok_desc s Hok _ Hr)).
Qed.

Lemma reachable_table_ok s : reachable s -> table_ok s.
Proof.
  induction 1.
  - apply table_ok_new.
  - by apply table_ok_set_is_enabled.
  - by apply table_ok_set_is_enabled.
  - by apply table_ok_set_is_enabled.
  - by apply table_ok_registerAuto.
  - by apply table_ok_write.
  - by apply table_ok_erase.
  - by apply table_ok_setFileEnabled.
  - by apply table_ok_clearModifiedFlag.
Qed.

Lemma reachable_record_ok s ty :
  reachable s -> findFileIndex s ty <> -1 ->
  desc_ok (file_at s (findFileIndex s ty)) /\
  (Z.to_nat (findFileIndex s ty) < length (files s))%nat.
Proof.
  intros Hr Hidx. apply reachable_table_ok in Hr.
  destruct (findFileIndex_found s ty Hidx) as [Hrange _].
  split; [by apply (ok_desc s Hr)|].
  rewrite (ok_slots s Hr). pose proof (ok_count s Hr). lia.
Qed.

(** The marker of an admitted record is never at the top of the 16-bit
    range, so [dataAddr] is the next address. *)
Lemma desc_ok_dataAddr f : desc_ok f -> to_uint16 (startAddr f + 1) = startAddr f + 1.
Proof.
  intros [G1 G2 G3 G4 G5]. rewrite EEFILE_TOTAL_SIZE_eq in G3.
  pose proof (to_uint16_range (maxSize f + 1)) as Hr. unfold is_uint16 in Hr.
  apply to_uint16_small. unfold is_uint16. lia.
Qed.

(** For an admitted record, [endAddr] never lies beyond the last byte that
    [write] pads. *)
Lemma desc_ok_endAddr_le f : desc_ok f -> endAddr f <= startAddr f + maxSize f.
Proof.
  intros [G1 G2 G3 G4 G5]. rewrite G4. unfold is_uint16, to_uint16 in *.
  rewrite EEFILE_TOTAL_SIZE_eq in G3. Z.div_mod_to_equations. lia.
Qed.

(** ** What [write] does to the device *)

Section StoreRecord.
Variables (dev : EEPROM.t) (a len m : Z) (data : list byte).
Hypothesis Hlen : 0 <= len <= m.

Lemma store_record_marker :
  EEPROM.cells (store_record dev a len m data) a = x01.
Proof.
  unfold store_record, for_range.
  rewrite !write_loop_outside by lia.
  cbn [EEPROM.write EEPROM.cells]. by rewrite Z.eqb_refl.
Qed.

Lemma store_record_payload i :
  0 <= i < len ->
  EEPROM.cells (store_record dev a len m data) (a + 1 + i) = byte_at data i.
Proof.
  intros Hi. unfold store_record, for_range.
  rewrite write_loop_outside by lia.
  apply (write_loop_inside (a + 1) (byte_at data)). lia.
Qed.

Lemma store_record_padding b :
  a + 1 + len <= b <= a + m ->
  EEPROM.cells (store_record dev a len m data) b = xff.
Proof.
  intros Hb. unfold store_record, for_range.
  replace b with (a + 1 + (b - a - 1)) by lia.
  apply (write_loop_inside (a + 1) (fun _ => xff)). lia.
Qed.

Lemma store_record_frame b :
  b < a \/ a + m < b ->
  EEPROM.cells (store_record dev a len m data) b = EEPROM.cells dev b.
Proof.
  intros Hb. unfold store_record, for_range.
  rewrite !write_loop_outside by lia.
  cbn [EEPROM.write EEPROM.cells].
  destruct (Z.eqb_spec b a); [lia | reflexivity].
Qed.

Lemma store_record_journal :
  EEPROM.journal (store_record dev a len m data) =
  EEPROM.journal dev ++
    (a, x01) ::
    ((fun i => (a + 1 + i, byte_at data i)) <$> seqZ 0 len) ++
    ((fun i => (a + 1 + i, xff)) <$> seqZ len (m - len)).
Proof.
  unfold store_record, for_range. rewrite !write_loop_journal.
  cbn [EEPROM.write EEPROM.journal].
  rewrite !Z2Nat.id by lia. rewrite Z.sub_0_r.
  rewrite <- !app_assoc. reflexivity.
Qed.
End StoreRecord.

(** A [write] that passes its four checks. *)
Lemma write_passes s dev ty data len :
  is_enabled s = true ->
  findFileIndex s ty <> -1 ->
  enabled (record_of s ty) = true ->
  len <= maxSize (record_of s ty) ->
  to_uint16 (startAddr (record_of s ty) + 1) = startAddr (record_of s ty) + 1 ->
  write s dev ty data len =
  mkEffect Done
    (set_file s (findFileIndex s ty) (with_write (record_of s ty) len))
    (store_record dev (startAddr (record_of s ty)) len (maxSize (record_of s ty)) data).
Proof.
  intros He Hidx Hen Hlen Heq. unfold record_of in *.
  unfold write. rewrite He. cbn [negb]. cbn zeta.
  destruct (Z.eqb_spec (findFileIndex s ty) (-1)); [done|].
  rewrite Hen. cbn [negb].
  destruct (Z.gtb_spec len (maxSize (file_at s (findFileIndex s ty)))); [lia|].
  rewrite Heq. reflexivity.
Qed.

(** A [write] that returned [true] passed its four checks. *)
Lemma write_succeeded_inv s dev ty data len :
  succeeded (outcome (write s dev ty data len)) = true ->
  is_enabled s = true /\ findFileIndex s ty <> -1 /\
  enabled (record_of s ty) = true /\ len <= maxSize (record_of s ty).
Proof.
  unfold write, record_of. destruct (is_enabled s); [|done]. cbn [negb]. cbn zeta.
  destruct (Z.eqb_spec (findFileIndex s ty) (-1)); [done|].
  destruct (enabled (file_at s (findFileIndex s ty))); [|done]. cbn [negb].
  destruct (Z.gtb_spec len (maxSize (file_at s (findFileIndex s ty)))); [done|].
  intros _. repeat split; try done; lia.
Qed.

(** A failing [write] touches neither the table nor the device. *)
Lemma write_failed_unchanged s dev ty data len :
  succeeded (outcome (write s dev ty data len)) = false ->
  store (write s dev ty data len) = s /\ device (write s dev ty data len) = dev.
Proof.
  unfold write. destruct (negb (is_enabled s)); [done|]. cbn zeta.
  destruct (findFileIndex s ty =? -1); [done|].
  destruct (negb (enabled _)); [done|].
  destruct (len >? maxSize _); done.
Qed.

(** [write] on a reachable table, in closed form. *)
Lemma write_reachable s dev ty data len :
  reachable s ->
  succeeded (outcome (write s dev ty data len)) = true ->
  write s dev ty data len =
  mkEffect Done
    (set_file s (findFileIndex s ty) (with_write (record_of s ty) len))
    (store_record dev (startAddr (record_of s ty)) len (maxSize (record_of s ty)) data).
Proof.
  intros Hr Hok. destruct (write_succeeded_inv _ _ _ _ _ Hok) as (He & Hidx & Hen & Hlen).
  apply write_passes; try done.
  apply desc_ok_dataAddr. by apply reachable_record_ok.
Qed.

Lemma record_of_set_file s ty f :
  findFileIndex s ty <> -1 ->
  (Z.to_nat (findFileIndex s ty) < length (files s))%nat ->
  type f = type (record_of s ty) ->
  record_of (set_file s (findFileIndex s ty) f) ty = f.
Proof.
  intros Hidx Hlt Hty. unfold record_of in *.
  rewrite findFileIndex_set_file by done. by apply file_at_set_file_eq.
Qed.

(** The accessors, for a registered identifier. *)
Lemma getFileDataLen_found s ty :
  findFileIndex s ty <> -1 -> getFileDataLen s ty = dataLen (record_of s ty).
Proof.
  intros Hidx. unfold getFileDataLen, record_of. cbn zeta.
  by destruct (Z.eqb_spec (findFileIndex s ty) (-1)).
Qed.

Lemma isFileModified_found s ty :
  findFileIndex s ty <> -1 -> isFileModified s ty = modified (record_of s ty).
Proof.
  intros Hidx. unfold isFileModified, record_of. cbn zeta.
  by destruct (Z.eqb_spec (findFileIndex s ty) (-1)).
Qed.

Lemma isFileEnabled_found s ty :
  findFileIndex s ty <> -1 -> isFileEnabled s ty = enabled (record_of s ty).
Proof.
  intros Hidx. unfold isFileEnabled, record_of. cbn zeta.
  by destruct (Z.eqb_spec (findFileIndex s ty) (-1)).
Qed.

Lemma isFileValid_found s dev ty :
  findFileIndex s ty <> -1 ->
  isFileValid s dev ty = Byte.eqb (EEPROM.read dev (startAddr (record_of s ty))) x01.
Proof.
  intros Hidx. unfold isFileValid, record_of. cbn zeta.
  by destruct (Z.eqb_spec (findFileIndex s ty) (-1)).
Qed.

(** ** What [read] returns *)

(** A [read] that passes its four checks copies [min len dataLen] bytes. *)
Lemma read_passes s dev ty buf len :
  is_enabled s = true ->
  findFileIndex s ty <> -1 ->
  enabled (record_of s ty) = true ->
  EEPROM.read dev (startAddr (record_of s ty)) = x01 ->
  read s dev ty buf len =
  (Done,
   for_range 0 (Z.min len (dataLen (record_of s ty)))
     (fill_step (fun i => EEPROM.read dev (to_uint16 (startAddr (record_of s ty) + 1) + i)))
     buf).
Proof.
  intros He Hidx Hen Hmark. unfold record_of in *.
  unfold read. rewrite He. cbn [negb]. cbn zeta.
  destruct (Z.eqb_spec (findFileIndex s ty) (-1)); [done|].
  rewrite Hen, Hmark. cbn [negb Byte.eqb].
  replace (if len <? dataLen (file_at s (findFileIndex s ty)) then len
           else dataLen (file_at s (findFileIndex s ty)))
    with (Z.min len (dataLen (file_at s (findFileIndex s ty)))); [reflexivity|].
  destruct (Z.ltb_spec len (dataLen (file_at s (findFileIndex s ty)))); lia.
Qed.

(** ** The layout [write] produces, and reading it back *)

Lemma sketch_store_reachable : reachable sketch_store.
Proof.
  unfold sketch_store.
  repeat (apply reach_registerAuto; [|unfold is_uint16; lia]).
  apply reach_enable, reach_begin, reach_new.
Defined.

(** C7. On every successful [write(type, data, length)] the device holds
    [0x01] at [startAddr], [data[0..length)] at [startAddr+1 ..
    startAddr+length] and [0xFF] at every address of
    [[startAddr+1+length, endAddr]]; the descriptor's [dataLen] becomes
    [length] and [modified] becomes true; and the journal of device writes
    shows the marker write first, then the payload bytes in order, then the
    padding. *)
Theorem C7_write_layout s dev ty data len :
  reachable s -> is_uint16 len ->
  succeeded (outcome (write s dev ty data len)) = true ->
  let f := record_of s ty in
  let w := write s dev ty data len in
  EEPROM.read (device w) (startAddr f) = x01 /\
  (forall i, 0 <= i < len ->
     EEPROM.read (device w) (startAddr f + 1 + i) = byte_at data i) /\
  (forall a, startAddr f + 1 + len <= a <= endAddr f ->
     EEPROM.read (device w) a = xff) /\
  dataLen (record_of (store w) ty) = len /\
  modified (record_of (store w) ty) = true /\
  getFileDataLen (store w) ty = len /\
  isFileModified (store w) ty = true /\
  EEPROM.journal (device w) =
    EEPROM.journal dev ++
      (startAddr f, x01) ::
      ((fun i => (startAddr f + 1 + i, byte_at data i)) <$> seqZ 0 len) ++
      ((fun i => (startAddr f + 1 + i, xff)) <$> seqZ len (maxSize f - len)).
Proof.
  intros Hr Hlen Hok f w.
  destruct (write_succeeded_inv _ _ _ _ _ Hok) as (He & Hidx & Hen & Hmax).
  destruct (reachable_record_ok s ty Hr Hidx) as [Hdesc Hslot].
  assert (Hw : w = mkEffect Done
             (set_file s (findFileIndex s ty) (with_write f len))
             (store_record dev (startAddr f) len (maxSize f) data))
    by (by apply write_reachable).
  assert (Hb : 0 <= len <= maxSize f) by (unfold is_uint16 in Hlen; fold f in Hmax; lia).
  assert (Hrec : record_of (store w) ty = with_write f len).
  { rewrite Hw. cbn [store]. by apply record_of_set_file. }
  assert (Hfind : findFileIndex (store w) ty = findFileIndex s ty).
  { rewrite Hw. cbn [store]. by apply findFileIndex_set_file. }
  rewrite getFileDataLen_found, isFileModified_found by (by rewrite Hfind).
  rewrite Hrec. cbn [dataLen modified with_write].
  rewrite Hw. cbn [device]. unfold EEPROM.read.
  repeat split.
  - by apply store_record_marker.
  - intros i Hi. by apply store_record_payload.
  - intros a Ha. pose proof (desc_ok_endAddr_le f Hdesc).
    apply store_record_padding; lia.
  - by apply store_record_journal.
Qed.

(** The sketch writes [0x42] to [IIC_START] on a blank device. *)
Lemma C7_write_layout_witness :
  reachable sketch_store /\ is_uint16 1 /\
  succeeded (outcome (write sketch_store (EEPROM.filled xff) IIC_START [x42] 1)) = true /\
  EEPROM.read (device (write sketch_store (EEPROM.filled xff) IIC_START [x42] 1)) 0 = x01.
Proof.
  split; [exact sketch_store_reachable|].
  split; [unfold is_uint16; lia|].
  split; [reflexivity|].
  exact (proj1 (C7_write_layout sketch_store (EEPROM.filled xff) IIC_START [x42] 1
                  sketch_store_reachable ltac:(unfold is_uint16; lia) eq_refl)).
Defined.

(** C1. Write-then-read round trip: for every registered, enabled record
    with the store enabled and every payload of [length <= maxSize],
    [write(type, data, length)] returns true, and the [read(type, buffer,
    length)] that follows returns true with [buffer[0..length)] equal to
    [data[0..length)]. *)
Theorem C1_write_read_roundtrip s dev ty data buf len :
  reachable s ->
  is_enabled s = true ->
  findFileIndex s ty <> -1 ->
  enabled (record_of s ty) = true ->
  0 <= len <= maxSize (record_of s ty) ->
  (Z.to_nat len <= length data)%nat ->
  (Z.to_nat len <= length buf)%nat ->
  let w := write s dev ty data len in
  let r := read (store w) (device w) ty buf len in
  succeeded (outcome w) = true /\
  succeeded r.1 = true /\
  take (Z.to_nat len) r.2 = take (Z.to_nat len) data.
Proof.
  intros Hr He Hidx Hen Hlen Hdata Hbuf w r.
  destruct (reachable_record_ok s ty Hr Hidx) as [Hdesc Hslot].
  fold (record_of s ty) in Hdesc.
  pose proof (desc_ok_dataAddr _ Hdesc) as Hda.
  assert (Hw : w = mkEffect Done
             (set_file s (findFileIndex s ty) (with_write (record_of s ty) len))
             (store_record dev (startAddr (record_of s ty)) len
                (maxSize (record_of s ty)) data))
    by (apply write_passes; first [done | lia]).
  set (f := record_of s ty) in *.
  assert (Hrec : record_of (store w) ty = with_write f len).
  { rewrite Hw. cbn [store]. by apply record_of_set_file. }
  assert (Hfind : findFileIndex (store w) ty = findFileIndex s ty).
  { rewrite Hw. cbn [store]. by apply findFileIndex_set_file. }
  assert (Hrd : r =
    (Done,
     for_range 0 len
       (fill_step (fun i => EEPROM.read (device w) (startAddr f + 1 + i))) buf)).
  { unfold r. rewrite (read_passes (store w) (device w) ty buf len).
    - rewrite Hrec. cbn [dataLen startAddr with_write].
      rewrite Hda, Z.min_id. reflexivity.
    - rewrite Hw. cbn [store set_file is_enabled]. exact He.
    - by rewrite Hfind.
    - rewrite Hrec. cbn [enabled with_write]. exact Hen.
    - rewrite Hrec. cbn [startAddr with_write]. rewrite Hw. cbn [device].
      unfold EEPROM.read. by apply store_record_marker. }
  split; [by rewrite Hw|]. rewrite Hrd. cbn [fst snd]. split; [reflexivity|].
  apply list_eq. intros k.
  destruct (decide (k < Z.to_nat len)%nat) as [Hk|Hk].
  - rewrite !lookup_take_lt by done. unfold for_range.
    rewrite fill_loop_inside by lia.
    rewrite Hw. cbn [device]. unfold EEPROM.read.
    rewrite store_record_payload by lia.
    unfold byte_at. rewrite Nat2Z.id.
    destruct (lookup_lt_is_Some_2 data k) as [b Hb]; [lia|]. by rewrite Hb.
  - by rewrite !lookup_take_ge by lia.
Qed.

(** The sketch's first write, read back into a one-byte buffer. *)
Lemma C1_write_read_roundtrip_witness :
  reachable sketch_store /\
  is_enabled sketch_store = true /\
  findFileIndex sketch_store IIC_START <> -1 /\
  enabled (record_of sketch_store IIC_START) = true /\
  0 <= 1 <= maxSize (record_of sketch_store IIC_START) /\
  (Z.to_nat 1 <= length [x42])%nat /\
  (Z.to_nat 1 <= length [x00])%nat /\
  succeeded (outcome (write sketch_store (EEPROM.filled xff) IIC_START [x42] 1)) = true.
Proof.
  assert (H1 : findFileIndex sketch_store IIC_START <> -1) by (vm_compute; discriminate).
  assert (H2 : 0 <= 1 <= maxSize (record_of sketch_store IIC_START))
    by (vm_compute; split; discriminate).
  assert (H3 : (Z.to_nat 1 <= length [x42])%nat) by (vm_compute; lia).
  assert (H4 : (Z.to_nat 1 <= length [x00])%nat) by (vm_compute; lia).
  repeat (split; [first [exact sketch_store_reachable | reflexivity | assumption]|]).
  exact (proj1 (C1_write_read_roundtrip sketch_store (EEPROM.filled xff) IIC_START
                  [x42] [x00] 1 sketch_store_reachable eq_refl H1 eq_refl H2 H3 H4)).
Defined.

(** ** The validity marker *)

Lemma setFileValid_found s dev ty valid :
  findFileIndex s ty <> -1 ->
  setFileValid s dev ty valid =
  mkEffect Done s
    (EEPROM.write dev (startAddr (record_of s ty)) (if valid then x01 else x00)).
Proof.
  intros Hidx. unfold setFileValid, record_of. cbn zeta.
  by destruct (Z.eqb_spec (findFileIndex s ty) (-1)).
Qed.

Lemma EEPROM_read_write_eq dev a v : EEPROM.read (EEPROM.write dev a v) a = v.
Proof. unfold EEPROM.read, EEPROM.write. cbn. by rewrite Z.eqb_refl. Qed.

Lemma EEPROM_read_write_ne dev a b v :
  b <> a -> EEPROM.read (EEPROM.write dev a v) b = EEPROM.read dev b.
Proof.
  intros Hne. unfold EEPROM.read, EEPROM.write. cbn.
  by destruct (Z.eqb_spec b a).
Qed.

(** C9. For every registered record and every prior state of table and
    device, [setFileValid(type, true)] followed by [isFileValid(type)]
    gives true and [setFileValid(type, false)] followed by
    [isFileValid(type)] gives false; neither call changes the table (so
    [getFileDataLen] is what it was) or any device byte other than the
    marker (so no payload byte changes); and [isFileValid] of an identifier
    that is not registered is false. *)
Theorem C9_setValid_isValid s dev ty :
  (findFileIndex s ty <> -1 ->
   forall valid,
     let e := setFileValid s dev ty valid in
     isFileValid (store e) (device e) ty = valid /\
     store e = s /\
     getFileDataLen (store e) ty = getFileDataLen s ty /\
     (forall a, a <> startAddr (record_of s ty) ->
        EEPROM.read (device e) a = EEPROM.read dev a)) /\
  (findFileIndex s ty = -1 -> isFileValid s dev ty = false).
Proof.
  split.
  - intros Hidx valid e. unfold e. rewrite setFileValid_found by done.
    cbn [store device]. rewrite isFileValid_found by done.
    rewrite EEPROM_read_write_eq.
    split; [by destruct valid|]. split; [reflexivity|]. split; [reflexivity|].
    intros a Ha. by apply EEPROM_read_write_ne.
  - intros Hidx. unfold isFileValid. cbn zeta. by rewrite Hidx.
Qed.

(** On the sketch's table: marking [KAL_MAN] valid on a blank device, and
    asking for an identifier that was never registered. *)
Lemma C9_setValid_isValid_witness :
  findFileIndex sketch_store KAL_MAN <> -1 /\
  isFileValid sketch_store
    (device (setFileValid sketch_store (EEPROM.filled xff) KAL_MAN true)) KAL_MAN = true /\
  findFileIndex sketch_store END = -1 /\
  isFileValid sketch_store (EEPROM.filled xff) END = false.
Proof.
  assert (H1 : findFileIndex sketch_store KAL_MAN <> -1) by (vm_compute; discriminate).
  assert (H2 : findFileIndex sketch_store END = -1) by reflexivity.
  split; [exact H1|].
  split; [exact (proj1 (proj1 (C9_setValid_isValid sketch_store (EEPROM.filled xff) KAL_MAN)
                           H1 true))|].
  split; [exact H2|].
  exact (proj2 (C9_setValid_isValid sketch_store (EEPROM.filled xff) END) H2).
Defined.

(** ** Length handling in [read] *)

(** The buffer after the copy loop depends only on the device bytes of the
    range that is copied. *)
Lemma fill_loop_ext (src1 src2 : Z -> byte) n : forall i buf,
  (forall j, i <= j < i + Z.of_nat n -> src1 j = src2 j) ->
  for_loop n i (fill_step src1) buf = for_loop n i (fill_step src2) buf.
Proof.
  induction n as [|n IH]; intros i buf Hsrc; [reflexivity|].
  cbn [for_loop]. unfold fill_step at 2 4. rewrite (Hsrc i) by lia.
  apply IH. intros j Hj. apply Hsrc. lia.
Qed.

(** C6, as amended.  For every registered, enabled record whose marker
    byte is [0x01], and with the store enabled, [read(type, buffer,
    expectedLength)] returns true whether or not [expectedLength] equals
    [dataLen]; it copies exactly [min(expectedLength, dataLen)] bytes, taken
    from device addresses [startAddr+1 ...], into the front of the buffer
    and leaves the rest of the buffer alone; and its result depends on no
    device byte beyond those (none past [dataLen] is read). *)
Theorem C6_read_min_length s dev ty buf len :
  reachable s ->
  is_enabled s = true ->
  findFileIndex s ty <> -1 ->
  enabled (record_of s ty) = true ->
  EEPROM.read dev (startAddr (record_of s ty)) = x01 ->
  is_uint16 len ->
  (Z.to_nat len <= length buf)%nat ->
  let f := record_of s ty in
  let n := Z.min len (dataLen f) in
  let r := read s dev ty buf len in
  succeeded r.1 = true /\
  length r.2 = length buf /\
  (forall k, 0 <= k < n ->
     r.2 !! Z.to_nat k = Some (EEPROM.read dev (startAddr f + 1 + k))) /\
  (forall k : nat, n <= Z.of_nat k -> r.2 !! k = buf !! k) /\
  (forall dev',
     (forall a, startAddr f <= a <= startAddr f + n ->
        EEPROM.read dev' a = EEPROM.read dev a) ->
     read s dev' ty buf len = r).
Proof.
  intros Hr He Hidx Hen Hmark Hlen Hbuf f n r.
  destruct (reachable_record_ok s ty Hr Hidx) as [Hdesc Hslot].
  fold (record_of s ty) in Hdesc. fold f in Hdesc.
  pose proof (desc_ok_dataAddr _ Hdesc) as Hda.
  pose proof (ok_dataLen _ Hdesc) as Hdl.
  pose proof (ok_start _ Hdesc) as Hst.
  assert (Hn : 0 <= n <= len) by (unfold n, is_uint16 in *; lia).
  assert (Hrd : forall d, EEPROM.read d (startAddr f) = x01 ->
    read s d ty buf len =
    (Done, for_range 0 n (fill_step (fun i => EEPROM.read d (startAddr f + 1 + i))) buf)).
  { intros d Hd. rewrite read_passes by done. fold f. by rewrite Hda. }
  unfold r. rewrite (Hrd dev Hmark). cbn [fst snd]. unfold for_range.
  split; [reflexivity|]. split; [apply fill_loop_length|].
  split; [|split].
  - intros k Hk. rewrite fill_loop_inside by lia. by rewrite Z2Nat.id by lia.
  - intros k Hk. apply fill_loop_outside; lia.
  - intros dev' Hsame. rewrite Hrd by (rewrite Hsame; [done | lia]).
    unfold for_range. f_equal. apply fill_loop_ext.
    intros j Hj. apply Hsame. lia.
Qed.

Lemma sketch_written_reachable : reachable (store sketch_written).
Proof.
  apply reach_write; [exact sketch_store_reachable | unfold is_uint16; lia].
Defined.

(** After the sketch's first write: asking for four bytes of a record that
    holds one. *)
Lemma C6_read_min_length_witness :
  reachable (store sketch_written) /\
  is_enabled (store sketch_written) = true /\
  findFileIndex (store sketch_written) IIC_START <> -1 /\
  enabled (record_of (store sketch_written) IIC_START) = true /\
  EEPROM.read (device sketch_written)
    (startAddr (record_of (store sketch_written) IIC_START)) = x01 /\
  is_uint16 4 /\
  (Z.to_nat 4 <= length [x00; x00; x00; x00])%nat /\
  succeeded (read (store sketch_written) (device sketch_written) IIC_START
               [x00; x00; x00; x00] 4).1 = true.
Proof.
  assert (H1 : findFileIndex (store sketch_written) IIC_START <> -1)
    by (vm_compute; discriminate).
  assert (H2 : is_uint16 4) by (unfold is_uint16; lia).
  assert (H3 : (Z.to_nat 4 <= length [x00; x00; x00; x00])%nat) by (vm_compute; lia).
  repeat (split; [first [exact sketch_written_reachable | assumption | reflexivity]|]).
  exact (proj1 (C6_read_min_length (store sketch_written) (device sketch_written)
                  IIC_START [x00; x00; x00; x00] 4
                  sketch_written_reachable eq_refl H1 eq_refl eq_refl H2 H3)).
Defined.

(** C6 without the condition on the store-wide switch fails:
    [unstarted_store] has a registered, enabled record, the device holds
    [0x01] at its marker, and [read] returns false from its first check. *)
Lemma C6_counterexample_store_disabled :
  reachable unstarted_store /\
  findFileIndex unstarted_store IIC_START <> -1 /\
  enabled (record_of unstarted_store IIC_START) = true /\
  EEPROM.read (EEPROM.filled x01) (startAddr (record_of unstarted_store IIC_START)) = x01 /\
  read unstarted_store (EEPROM.filled x01) IIC_START [x00] 1 = (EepromDisabled, [x00]) /\
  succeeded (read unstarted_store (EEPROM.filled x01) IIC_START [x00] 1).1 = false.
Proof.
  split.
  - apply reach_registerAuto; [apply reach_new | unfold is_uint16; lia].
  - split; [vm_compute; discriminate|]. repeat split; reflexivity.
Qed.

(** ** Erase *)

(** An [erase] that returned [true] passed its two checks: store enabled,
    identifier registered.  The per-record [enabled] flag is not looked at. *)
Lemma erase_succeeded_inv s dev ty :
  succeeded (outcome (erase s dev ty)) = true ->
  is_enabled s = true /\ findFileIndex s ty <> -1 /\
  erase s dev ty =
  mkEffect Done
    (set_file s (findFileIndex s ty) (with_erase (record_of s ty)))
    (EEPROM.write dev (startAddr (record_of s ty)) x00).
Proof.
  unfold erase, record_of. destruct (is_enabled s); [|done]. cbn [negb]. cbn zeta.
  by destruct (Z.eqb_spec (findFileIndex s ty) (-1)).
Qed.

Lemma erase_failed_unchanged s dev ty :
  succeeded (outcome (erase s dev ty)) = false ->
  store (erase s dev ty) = s /\ device (erase s dev ty) = dev.
Proof.
  unfold erase. destruct (negb (is_enabled s)); [done|]. cbn zeta.
  by destruct (findFileIndex s ty =? -1).
Qed.

(** A [read] refused at the per-record switch or at the marker leaves the
    buffer alone. *)
Lemma read_after_invalid s dev ty buf len :
  is_enabled s = true ->
  findFileIndex s ty <> -1 ->
  EEPROM.read dev (startAddr (record_of s ty)) <> x01 ->
  read s dev ty buf len =
  (if enabled (record_of s ty) then DataInvalid else TypeDisabled, buf).
Proof.
  intros He Hidx Hmark. unfold read, record_of in *. rewrite He. cbn [negb]. cbn zeta.
  destruct (Z.eqb_spec (findFileIndex s ty) (-1)); [done|].
  destruct (enabled (file_at s (findFileIndex s ty))); [|done]. cbn [negb].
  destruct (Byte.eqb _ x01) eqn:Heq; [|done].
  by apply Byte.byte_dec_bl in Heq.
Qed.

(** After a successful [erase(type)] on a reachable table:
    [isFileValid(type)] is false, [getFileDataLen(type)] is 0, and every
    following [read(type, ...)] returns false and leaves the buffer alone,
    from the marker check when the record is enabled.  [erase] performs one
    device write, [0x00] at the marker, so every other byte (the payload
    [[startAddr+1, endAddr]] included) keeps its value; and it sets
    [dataLen] to 0 and [modified] to false. *)
Lemma erase_then_read s dev ty :
  reachable s ->
  succeeded (outcome (erase s dev ty)) = true ->
  let f := record_of s ty in
  let e := erase s dev ty in
  isFileValid (store e) (device e) ty = false /\
  getFileDataLen (store e) ty = 0 /\
  (forall buf len,
     succeeded (read (store e) (device e) ty buf len).1 = false /\
     read (store e) (device e) ty buf len =
       (if enabled f then DataInvalid else TypeDisabled, buf)) /\
  EEPROM.journal (device e) = EEPROM.journal dev ++ [(startAddr f, x00)] /\
  EEPROM.read (device e) (startAddr f) = x00 /\
  (forall a, a <> startAddr f -> EEPROM.read (device e) a = EEPROM.read dev a) /\
  (forall a, startAddr f + 1 <= a <= endAddr f ->
     EEPROM.read (device e) a = EEPROM.read dev a) /\
  dataLen (record_of (store e) ty) = 0 /\
  modified (record_of (store e) ty) = false.
Proof.
  intros Hr Hok f e.
  destruct (erase_succeeded_inv _ _ _ Hok) as (He & Hidx & Heq).
  destruct (reachable_record_ok s ty Hr Hidx) as [Hdesc Hslot].
  assert (Hrec : record_of (store e) ty = with_erase f).
  { unfold e. rewrite Heq. cbn [store]. by apply record_of_set_file. }
  assert (Hfind : findFileIndex (store e) ty = findFileIndex s ty).
  { unfold e. rewrite Heq. cbn [store]. by apply findFileIndex_set_file. }
  assert (Hfound : findFileIndex (store e) ty <> -1) by (by rewrite Hfind).
  assert (Hdev : device e = EEPROM.write dev (startAddr f) x00)
    by (unfold e; by rewrite Heq).
  assert (Hmark : EEPROM.read (device e) (startAddr (record_of (store e) ty)) = x00).
  { rewrite Hrec, Hdev. cbn [startAddr with_erase]. apply EEPROM_read_write_eq. }
  assert (Hen' : is_enabled (store e) = true) by (unfold e; by rewrite Heq).
  rewrite isFileValid_found, getFileDataLen_found by done.
  rewrite Hmark, Hrec. cbn [dataLen modified with_erase].
  split; [reflexivity|]. split; [reflexivity|]. split.
  - intros buf len. rewrite read_after_invalid by (done || by rewrite Hmark).
    rewrite Hrec. cbn [enabled with_erase fst]. split; [|reflexivity].
    by destruct (enabled f).
  - rewrite Hdev. split; [reflexivity|]. split; [apply EEPROM_read_write_eq|].
    split; [|split; [|done]].
    + intros a Ha. by apply EEPROM_read_write_ne.
    + intros a Ha. apply EEPROM_read_write_ne. lia.
Qed.

(** Erasing what the sketch has just written. *)
Lemma erase_then_read_witness :
  reachable (store sketch_written) /\
  succeeded (outcome (erase (store sketch_written) (device sketch_written) IIC_START)) = true /\
  isFileValid
    (store (erase (store sketch_written) (device sketch_written) IIC_START))
    (device (erase (store sketch_written) (device sketch_written) IIC_START))
    IIC_START = false.
Proof.
  split; [exact sketch_written_reachable|]. split; [reflexivity|].
  exact (proj1 (erase_then_read (store sketch_written) (device sketch_written)
                  IIC_START sketch_written_reachable eq_refl)).
Defined.

Lemma sketch_disabled_reachable : reachable sketch_disabled.
Proof. apply reach_setFileEnabled. exact sketch_store_reachable. Defined.

(** On an enabled record, the [read] after a successful [erase] is refused
    by the marker check. *)
Lemma erase_then_read_enabled s dev ty buf len :
  reachable s ->
  succeeded (outcome (erase s dev ty)) = true ->
  enabled (record_of s ty) = true ->
  read (store (erase s dev ty)) (device (erase s dev ty)) ty buf len = (DataInvalid, buf).
Proof.
  intros Hr Hok Hen.
  destruct (erase_then_read s dev ty Hr Hok) as (_ & _ & Hread & _).
  destruct (Hread buf len) as [_ ->]. by rewrite Hen.
Qed.

(** C8, evaluated where the code departs from it.  [IIC_START] is
    registered and its per-record switch is off.  [erase] does not test the
    switch, so it returns true; the [read] that follows is then refused by
    the per-record switch, which [read] tests before it looks at the
    marker, and not by the marker check. *)
Theorem C8_erase_on_disabled_record :
  reachable sketch_disabled /\
  findFileIndex sketch_disabled IIC_START <> -1 /\
  isFileEnabled sketch_disabled IIC_START = false /\
  succeeded (outcome (erase sketch_disabled (EEPROM.filled x01) IIC_START)) = true /\
  isFileValid (store (erase sketch_disabled (EEPROM.filled x01) IIC_START))
              (device (erase sketch_disabled (EEPROM.filled x01) IIC_START))
              IIC_START = false /\
  getFileDataLen (store (erase sketch_disabled (EEPROM.filled x01) IIC_START))
                 IIC_START = 0 /\
  read (store (erase sketch_disabled (EEPROM.filled x01) IIC_START))
       (device (erase sketch_disabled (EEPROM.filled x01) IIC_START))
       IIC_START [x00] 1 = (TypeDisabled, [x00]) /\
  (read (store (erase sketch_disabled (EEPROM.filled x01) IIC_START))
        (device (erase sketch_disabled (EEPROM.filled x01) IIC_START))
        IIC_START [x00] 1).1 <> DataInvalid.
Proof.
  split; [exact sketch_disabled_reachable|].
  split; [vm_compute; discriminate|].
  do 5 (split; [reflexivity|]). vm_compute. discriminate.
Qed.

(** ** The per-record switch *)

Lemma set_file_same s i : set_file s i (file_at s i) = s.
Proof.
  unfold set_file, file_at. destruct s as [fs c e]. cbn [files fileCount is_enabled].
  f_equal. apply list_insert_id'. intros Hlt.
  destruct (lookup_lt_is_Some_2 fs (Z.to_nat i) Hlt) as [x Hx]. by rewrite Hx.
Qed.

Lemma set_file_twice s i f g : set_file (set_file s i f) i g = set_file s i g.
Proof.
  unfold set_file. cbn [files fileCount is_enabled]. f_equal.
  apply list_insert_insert_eq.
Qed.

Lemma setFileEnabled_found s ty b :
  findFileIndex s ty <> -1 ->
  setFileEnabled s ty b = set_file s (findFileIndex s ty) (with_enabled (record_of s ty) b).
Proof.
  intros Hidx. unfold setFileEnabled, record_of. cbn zeta.
  by destruct (Z.eqb_spec (findFileIndex s ty) (-1)).
Qed.

(** [write] and [read] on a disabled record are refused and change
    nothing. *)
Lemma write_disabled_refused s dev ty data len :
  findFileIndex s ty <> -1 ->
  enabled (record_of s ty) = false ->
  succeeded (outcome (write s dev ty data len)) = false /\
  store (write s dev ty data len) = s /\
  device (write s dev ty data len) = dev /\
  (is_enabled s = true -> outcome (write s dev ty data len) = TypeDisabled).
Proof.
  intros Hidx Hoff. unfold write, record_of in *.
  destruct (is_enabled s); cbn [negb]; [|done]. cbn zeta.
  destruct (Z.eqb_spec (findFileIndex s ty) (-1)); [done|].
  by rewrite Hoff.
Qed.

Lemma read_disabled_refused s dev ty buf len :
  findFileIndex s ty <> -1 ->
  enabled (record_of s ty) = false ->
  succeeded (read s dev ty buf len).1 = false /\
  (read s dev ty buf len).2 = buf /\
  (is_enabled s = true -> (read s dev ty buf len).1 = TypeDisabled).
Proof.
  intros Hidx Hoff. unfold read, record_of in *.
  destruct (is_enabled s); cbn [negb]; [|done]. cbn zeta.
  destruct (Z.eqb_spec (findFileIndex s ty) (-1)); [done|].
  by rewrite Hoff.
Qed.

(** Switching a record off and on again gives back the table as it was;
    the device is not involved. *)
Lemma setFileEnabled_off_on s ty :
  reachable s ->
  findFileIndex s ty <> -1 ->
  enabled (record_of s ty) = true ->
  setFileEnabled (setFileEnabled s ty false) ty true = s.
Proof.
  intros Hr Hidx Hon.
  destruct (reachable_record_ok s ty Hr Hidx) as [_ Hslot].
  rewrite (setFileEnabled_found s ty false) by done.
  assert (Hfind : findFileIndex
            (set_file s (findFileIndex s ty) (with_enabled (record_of s ty) false)) ty =
          findFileIndex s ty) by (by apply findFileIndex_set_file).
  rewrite setFileEnabled_found by (by rewrite Hfind).
  rewrite record_of_set_file by done. rewrite Hfind, set_file_twice.
  replace (with_enabled (with_enabled (record_of s ty) false) true)
    with (file_at s (findFileIndex s ty)); [apply set_file_same|].
  unfold record_of in *. destruct (file_at s (findFileIndex s ty)).
  cbn in Hon |- *. by rewrite Hon.
Qed.

(** C2, evaluated where the code departs from it.  [IIC_START] is
    registered and its per-record switch is off; the device holds a valid
    marker and one payload byte.  [write] and [read] are refused and change
    nothing, but [erase] returns true, overwrites the marker with [0x00]
    (so [isFileValid] goes from true to false) and resets [dataLen]. *)
Theorem C2_erase_ignores_record_switch :
  reachable written_disabled /\
  findFileIndex written_disabled IIC_START <> -1 /\
  isFileEnabled written_disabled IIC_START = false /\
  isFileValid written_disabled (device sketch_written) IIC_START = true /\
  getFileDataLen written_disabled IIC_START = 1 /\
  outcome (write written_disabled (device sketch_written) IIC_START [x07] 1) = TypeDisabled /\
  (read written_disabled (device sketch_written) IIC_START [x00] 1).1 = TypeDisabled /\
  succeeded (outcome (erase written_disabled (device sketch_written) IIC_START)) = true /\
  EEPROM.read (device sketch_written) 0 = x01 /\
  EEPROM.read (device (erase written_disabled (device sketch_written) IIC_START)) 0 = x00 /\
  isFileValid (store (erase written_disabled (device sketch_written) IIC_START))
              (device (erase written_disabled (device sketch_written) IIC_START))
              IIC_START = false /\
  getFileDataLen (store (erase written_disabled (device sketch_written) IIC_START))
                 IIC_START = 0.
Proof.
  split.
  { apply reach_setFileEnabled. exact sketch_written_reachable. }
  split; [vm_compute; discriminate|].
  repeat split; reflexivity.
Qed.

(** ** Registration *)

(** [registerAuto] branch by branch, in the order the checks are made. *)
Lemma registerAuto_full s ty maxSz :
  fileCount s >= EEFILE_MAX_FILES ->
  registerAuto s ty maxSz = (MaxFilesReached, s).
Proof.
  intros H. unfold registerAuto.
  by destruct (Z.geb_spec (fileCount s) EEFILE_MAX_FILES); [|lia].
Qed.

Lemma registerAuto_duplicate s ty maxSz :
  fileCount s < EEFILE_MAX_FILES ->
  findFileIndex s ty <> -1 ->
  registerAuto s ty maxSz = (AlreadyRegistered, s).
Proof.
  intros H Hidx. unfold registerAuto.
  destruct (Z.geb_spec (fileCount s) EEFILE_MAX_FILES); [lia|].
  by destruct (Z.eqb_spec (findFileIndex s ty) (-1)).
Qed.

Lemma registerAuto_no_space s ty maxSz :
  fileCount s < EEFILE_MAX_FILES ->
  findFileIndex s ty = -1 ->
  calculateNextAddr s + to_uint16 (maxSz + 1) > EEFILE_TOTAL_SIZE ->
  registerAuto s ty maxSz = (NotEnoughSpace, s).
Proof.
  intros H Hidx Hbig. unfold registerAuto.
  destruct (Z.geb_spec (fileCount s) EEFILE_MAX_FILES); [lia|].
  rewrite Hidx. cbn [Z.eqb negb Pos.eqb]. cbn zeta.
  by destruct (Z.gtb_spec (calculateNextAddr s + to_uint16 (maxSz + 1)) EEFILE_TOTAL_SIZE);
    [|lia].
Qed.

Lemma registerAuto_admits s ty maxSz :
  fileCount s < EEFILE_MAX_FILES ->
  findFileIndex s ty = -1 ->
  calculateNextAddr s + to_uint16 (maxSz + 1) <= EEFILE_TOTAL_SIZE ->
  registerAuto s ty maxSz =
  (Done,
   {| files := <[Z.to_nat (fileCount s) :=
                 {| type := ty;
                    maxSize := maxSz;
                    startAddr := calculateNextAddr s;
                    endAddr := to_uint16 (calculateNextAddr s + to_uint16 (maxSz + 1) - 1);
                    dataLen := 0;
                    enabled := true;
                    modified := false |}]> (files s);
      fileCount := to_uint8 (fileCount s + 1);
      is_enabled := is_enabled s |}).
Proof.
  intros H Hidx Hfit. unfold registerAuto.
  destruct (Z.geb_spec (fileCount s) EEFILE_MAX_FILES); [lia|].
  rewrite Hidx. cbn [Z.eqb negb Pos.eqb]. cbn zeta.
  by destruct (Z.gtb_spec (calculateNextAddr s + to_uint16 (maxSz + 1)) EEFILE_TOTAL_SIZE);
    [lia|].
Qed.

(** Whatever the reason, a refused registration leaves the whole store
    (descriptors, [fileCount], switch) as it was. *)
Lemma registerAuto_failed_unchanged s ty maxSz :
  succeeded (registerAuto s ty maxSz).1 = false -> (registerAuto s ty maxSz).2 = s.
Proof.
  unfold registerAuto. destruct (fileCount s >=? EEFILE_MAX_FILES); [done|].
  destruct (negb _); [done|]. cbn zeta.
  by destruct (_ >? EEFILE_TOTAL_SIZE).
Qed.

(** A descriptor whose size did not wrap ends at [startAddr + maxSize],
    inside the region. *)
Lemma desc_ok_plain f :
  desc_ok f -> maxSize f <> 65535 ->
  endAddr f = startAddr f + maxSize f /\ endAddr f < EEFILE_TOTAL_SIZE.
Proof.
  intros [G1 G2 G3 G4 G5] Hm. rewrite G4. unfold is_uint16, to_uint16 in *.
  rewrite EEFILE_TOTAL_SIZE_eq in *. Z.div_mod_to_equations. lia.
Qed.

(** A descriptor whose size is 65535 was charged zero bytes: it ends just
    before its own start, wrapping to 65535 when it starts at 0. *)
Lemma desc_ok_wrapped f :
  desc_ok f -> maxSize f = 65535 ->
  endAddr f = if startAddr f =? 0 then 65535 else startAddr f - 1.
Proof.
  intros [G1 G2 G3 G4 G5] Hm. rewrite G4, Hm. rewrite Hm in G3.
  change (to_uint16 (65535 + 1)) with 0 in *. rewrite EEFILE_TOTAL_SIZE_eq in G3.
  rewrite Z.add_0_r. apply to_uint16_pred. lia.
Qed.

(** On such tables the layout is the one the header promises: first record
    at 0, each next record one past the previous end, each record
    [maxSize + 1] bytes long and inside the region. *)
Lemma layout_contiguous s :
  reachable s -> plain_sizes s ->
  (0 < fileCount s -> startAddr (file_at s 0) = 0) /\
  (forall i, 0 < i < fileCount s ->
     startAddr (file_at s i) = endAddr (file_at s (i - 1)) + 1) /\
  (forall i, 0 <= i < fileCount s ->
     endAddr (file_at s i) = startAddr (file_at s i) + maxSize (file_at s i) /\
     endAddr (file_at s i) < EEFILE_TOTAL_SIZE).
Proof.
  intros Hr Hplain. apply reachable_table_ok in Hr.
  destruct Hr as [H1 H2 H3 H4 H5].
  split; [exact H4|]. split.
  - intros i Hi. rewrite H5 by done.
    destruct (desc_ok_plain (file_at s (i - 1))) as [He Hlt];
      [apply H3; lia | apply Hplain; lia |].
    pose proof (ok_start _ (H3 (i - 1) ltac:(lia))) as Hs.
    pose proof (ok_maxSize _ (H3 (i - 1) ltac:(lia))) as Hm.
    rewrite EEFILE_TOTAL_SIZE_eq in Hlt. unfold is_uint16 in Hm.
    apply to_uint16_small. unfold is_uint16. lia.
  - intros i Hi. apply desc_ok_plain; [by apply H3 | by apply Hplain].
Qed.

Lemma layout_disjoint s :
  reachable s -> plain_sizes s ->
  forall i j, 0 <= i < j -> j < fileCount s ->
    endAddr (file_at s i) < startAddr (file_at s j).
Proof.
  intros Hr Hplain i j Hij Hj.
  destruct (layout_contiguous s Hr Hplain) as (_ & Hnext & Hend).
  pose proof (reachable_table_ok s Hr) as Hok.
  assert (Hgen : forall n : nat, forall j, j = i + 1 + Z.of_nat n -> j < fileCount s ->
            endAddr (file_at s i) < startAddr (file_at s j)).
  { induction n as [|n IH]; intros k Hk Hkc.
    - rewrite Hnext by lia. replace (k - 1) with i by lia. lia.
    - rewrite Hnext by lia.
      specialize (IH (k - 1) ltac:(lia) ltac:(lia)).
      destruct (Hend (k - 1) ltac:(lia)) as [He _].
      pose proof (ok_maxSize _ (ok_desc s Hok (k - 1) ltac:(lia))) as Hm.
      unfold is_uint16 in Hm. lia. }
  apply (Hgen (Z.to_nat (j - i - 1))); lia.
Qed.

(** The layout of the example sketch: A(1), B(4), C(16). *)
Lemma sketch_layout :
  fileCount sketch_store = 3 /\
  (startAddr (record_of sketch_store IIC_START),
   endAddr (record_of sketch_store IIC_START)) = (0, 1) /\
  (startAddr (record_of sketch_store KAL_MAN),
   endAddr (record_of sketch_store KAL_MAN)) = (2, 6) /\
  (startAddr (record_of sketch_store USER_SETTINGS),
   endAddr (record_of sketch_store USER_SETTINGS)) = (7, 23).
Proof. repeat split; reflexivity. Qed.

Lemma findFileIndex_present s ty : findFileIndex s ty <> -1 <-> present s ty.
Proof.
  split.
  - intros Hidx. exists (findFileIndex s ty). by apply findFileIndex_found.
  - intros (i & Hi & Hty) Hnone. by apply (findFileIndex_absent s ty i Hnone Hi).
Qed.

Lemma calculateNextAddr_plain s :
  reachable s -> plain_sizes s -> calculateNextAddr s = spec_next_free s.
Proof.
  intros Hr Hplain. unfold calculateNextAddr, spec_next_free.
  destruct (Z.eqb_spec (fileCount s) 0) as [|Hc]; [reflexivity|]. cbn zeta.
  pose proof (reachable_table_ok s Hr) as Hok. pose proof (ok_count s Hok) as Hcnt.
  destruct (layout_contiguous s Hr Hplain) as (_ & _ & Hend).
  destruct (Hend (fileCount s - 1) ltac:(lia)) as [He Hlt].
  pose proof (ok_start _ (ok_desc s Hok (fileCount s - 1) ltac:(lia))) as Hs.
  pose proof (ok_maxSize _ (ok_desc s Hok (fileCount s - 1) ltac:(lia))) as Hm.
  rewrite EEFILE_TOTAL_SIZE_eq in Hlt. unfold is_uint16 in Hm.
  apply to_uint16_small. unfold is_uint16. lia.
Qed.

(** For every size but the one that wraps, and on tables built from such
    sizes, [registerAuto] is the registration of the specification: same
    checks in the same order, same outcome, same resulting table. *)
Lemma registerAuto_refines_spec s ty maxSz :
  reachable s -> plain_sizes s -> 0 <= maxSz < 65535 ->
  register_spec s ty maxSz (registerAuto s ty maxSz).1 (registerAuto s ty maxSz).2.
Proof.
  intros Hr Hplain Hm.
  pose proof (calculateNextAddr_plain s Hr Hplain) as Hnext.
  pose proof (calculateNextAddr_range s (reachable_table_ok s Hr)) as Hrange.
  pose proof (ok_count s (reachable_table_ok s Hr)) as Hcnt.
  assert (Hact : to_uint16 (maxSz + 1) = maxSz + 1)
    by (apply to_uint16_small; unfold is_uint16; lia).
  destruct (Z_lt_ge_dec (fileCount s) EEFILE_MAX_FILES) as [Hroom|Hfull].
  2:{ rewrite registerAuto_full by done. by apply spec_capacity. }
  destruct (Z.eq_dec (findFileIndex s ty) (-1)) as [Hnone|Hdup].
  2:{ rewrite registerAuto_duplicate by done.
      apply spec_duplicate; [done | by apply findFileIndex_present]. }
  assert (Habs : ~ present s ty).
  { intros Hp. by apply findFileIndex_present in Hp. }
  destruct (Z_gt_le_dec (calculateNextAddr s + to_uint16 (maxSz + 1)) EEFILE_TOTAL_SIZE)
    as [Hbig|Hfit].
  - rewrite registerAuto_no_space by done. cbn [fst snd].
    apply spec_no_space; [done | done | rewrite <- Hnext; lia].
  - rewrite registerAuto_admits by done. cbn [fst snd].
    rewrite Hact, Hnext in *. rewrite EEFILE_TOTAL_SIZE_eq in *.
    rewrite (to_uint16_small (spec_next_free s + (maxSz + 1) - 1))
      by (unfold is_uint16; lia).
    replace (spec_next_free s + (maxSz + 1) - 1) with (spec_next_free s + maxSz) by lia.
    replace (to_uint8 (fileCount s + 1)) with (fileCount s + 1)
      by (symmetry; unfold to_uint8, EEFILE_MAX_FILES in *; apply Z.mod_small; lia).
    apply spec_admit; try done. rewrite EEFILE_TOTAL_SIZE_eq. lia.
Qed.

(** *** The size that wraps: [maxSize = 65535]

    [actualSize = maxSize + 1] is stored in a [uint16_t]; for 65535 it
    becomes 0, the space check compares [nextAddr + 0] with the region size
    and passes, and [endAddr = nextAddr + 0 - 1] lands before the record. *)

(** C3, evaluated where the code departs from it.  On the empty table,
    [registerAuto(IIC_START, 65535)] passes the space check and appends a
    descriptor whose [endAddr] is 65535, not below [EEFILE_TOTAL_SIZE]. *)
Theorem C3_endAddr_check_wraps :
  is_uint16 65535 /\
  (registerAuto EEFILE_new IIC_START 65535).1 = Done /\
  fileCount (registerAuto EEFILE_new IIC_START 65535).2 = 1 /\
  record_of (registerAuto EEFILE_new IIC_START 65535).2 IIC_START =
    {| type := IIC_START; maxSize := 65535; startAddr := 0; endAddr := 65535;
       dataLen := 0; enabled := true; modified := false |} /\
  ~ endAddr (record_of (registerAuto EEFILE_new IIC_START 65535).2 IIC_START)
      < EEFILE_TOTAL_SIZE.
Proof.
  split; [unfold is_uint16; lia|].
  repeat split; try reflexivity. vm_compute. discriminate.
Qed.

(** C4, evaluated where the code departs from it.  Both registrations
    succeed; the first record ends at 65535, outside the region; the second
    record starts at 0 again, not one past the first record's end; and
    addresses 0 to 4 belong to both records. *)
Theorem C4_regions_overlap_after_wrap :
  (registerAuto (enable (begin EEFILE_new)) IIC_START 65535).1 = Done /\
  (registerAuto (registerAuto (enable (begin EEFILE_new)) IIC_START 65535).2 KAL_MAN 4).1
    = Done /\
  reachable overlapping_store /\
  (startAddr (record_of overlapping_store IIC_START),
   endAddr (record_of overlapping_store IIC_START)) = (0, 65535) /\
  (startAddr (record_of overlapping_store KAL_MAN),
   endAddr (record_of overlapping_store KAL_MAN)) = (0, 4) /\
  startAddr (record_of overlapping_store KAL_MAN) <>
    endAddr (record_of overlapping_store IIC_START) + 1 /\
  ~ endAddr (record_of overlapping_store IIC_START) <
      startAddr (record_of overlapping_store KAL_MAN).
Proof.
  split; [reflexivity|]. split; [reflexivity|]. split.
  { repeat (apply reach_registerAuto; [|unfold is_uint16; lia]).
    apply reach_enable, reach_begin, reach_new. }
  split; [reflexivity|]. split; [reflexivity|].
  split; vm_compute; discriminate.
Qed.

(** C5, evaluated where the code departs from it.  On the empty table and
    for size 65535, checks (a) and (b) pass and check (c) as the
    specification words it fails ([0 + 65535 + 1] exceeds the region), so
    the registration of the specification can only refuse and leave the
    table alone; [registerAuto] returns true and appends a descriptor. *)
Theorem C5_space_check_wraps :
  is_uint16 65535 /\
  fileCount EEFILE_new < EEFILE_MAX_FILES /\
  ~ present EEFILE_new IIC_START /\
  spec_next_free EEFILE_new + 65535 + 1 > EEFILE_TOTAL_SIZE /\
  (forall o s', register_spec EEFILE_new IIC_START 65535 o s' ->
     o = NotEnoughSpace /\ s' = EEFILE_new) /\
  (registerAuto EEFILE_new IIC_START 65535).1 = Done /\
  fileCount (registerAuto EEFILE_new IIC_START 65535).2 = 1 /\
  (registerAuto EEFILE_new IIC_START 65535).2 <> EEFILE_new.
Proof.
  assert (Habs : ~ present EEFILE_new IIC_START).
  { intros (i & Hi & _). cbn in Hi. lia. }
  split; [unfold is_uint16; lia|]. split; [reflexivity|]. split; [exact Habs|].
  split; [reflexivity|]. split.
  - intros o s' Hspec. inversion Hspec as [Hc|Hc Hp|Hc Hp Hs|Hc Hp Hs]; subst.
    + vm_compute in Hc. by destruct Hc.
    + contradiction.
    + done.
    + vm_compute in Hs. by destruct Hs.
  - split; [reflexivity|]. split; [reflexivity|].
    intros Heq. apply (f_equal fileCount) in Heq. vm_compute in Heq. discriminate.
Qed.

(** ** What a successful [write] leaves alone *)

(** In the table, only [dataLen] and [modified] of the record written
    change; on the device, nothing below [startAddr] or above
    [startAddr + maxSize] changes. *)
Lemma write_frame s dev ty data len :
  reachable s -> is_uint16 len ->
  succeeded (outcome (write s dev ty data len)) = true ->
  let f := record_of s ty in
  let w := write s dev ty data len in
  fileCount (store w) = fileCount s /\
  is_enabled (store w) = is_enabled s /\
  length (files (store w)) = length (files s) /\
  (forall j, 0 <= j -> j <> findFileIndex s ty -> file_at (store w) j = file_at s j) /\
  file_at (store w) (findFileIndex s ty) = with_write f len /\
  (forall a, a < startAddr f \/ startAddr f + maxSize f < a ->
     EEPROM.read (device w) a = EEPROM.read dev a).
Proof.
  intros Hr Hlen Hok f w.
  destruct (write_succeeded_inv _ _ _ _ _ Hok) as (He & Hidx & Hen & Hmax).
  destruct (reachable_record_ok s ty Hr Hidx) as [Hdesc Hslot].
  destruct (findFileIndex_found s ty Hidx) as [Hrange _].
  unfold w. rewrite write_reachable by done. cbn [store device].
  split; [reflexivity|]. split; [reflexivity|].
  split; [cbn [set_file files]; apply length_insert|].
  split; [|split].
  - intros j Hj Hne. apply file_at_set_file_ne. lia.
  - by apply file_at_set_file_eq.
  - intros a Ha. unfold EEPROM.read. apply store_record_frame; [|done].
    unfold is_uint16 in Hlen. lia.
Qed.

(** So for a record whose size did not wrap, a successful [write] changes
    device bytes of [[startAddr, endAddr]] only. *)
Lemma write_frame_plain s dev ty data len :
  reachable s -> is_uint16 len ->
  succeeded (outcome (write s dev ty data len)) = true ->
  maxSize (record_of s ty) <> 65535 ->
  forall a, a < startAddr (record_of s ty) \/ endAddr (record_of s ty) < a ->
    EEPROM.read (device (write s dev ty data len)) a = EEPROM.read dev a.
Proof.
  intros Hr Hlen Hok Hplain a Ha.
  destruct (write_succeeded_inv _ _ _ _ _ Hok) as (_ & Hidx & _ & _).
  destruct (reachable_record_ok s ty Hr Hidx) as [Hdesc _].
  destruct (desc_ok_plain _ Hdesc Hplain) as [Hend _]. fold (record_of s ty) in Hend.
  apply (write_frame s dev ty data len Hr Hlen Hok). lia.
Qed.

Lemma wrapped_store_reachable : reachable wrapped_store.
Proof.
  unfold wrapped_store.
  repeat (apply reach_registerAuto; [|unfold is_uint16; lia]).
  apply reach_enable, reach_begin, reach_new.
Qed.

(** C10, evaluated where the code departs from it.  [KAL_MAN] was admitted
    with size 65535 behind a two-byte record: its descriptor says
    [[startAddr, endAddr] = [2, 1]].  A one-byte [write] to it succeeds and
    changes device bytes 2, 3 and 600, none of which lies in that range
    (600 is beyond the whole region). *)
Theorem C10_write_escapes_region :
  reachable wrapped_store /\
  (startAddr (record_of wrapped_store KAL_MAN),
   endAddr (record_of wrapped_store KAL_MAN),
   maxSize (record_of wrapped_store KAL_MAN)) = (2, 1, 65535) /\
  succeeded (outcome (write wrapped_store (EEPROM.filled x00) KAL_MAN [x42] 1)) = true /\
  EEPROM.read (EEPROM.filled x00) 2 = x00 /\
  EEPROM.read (EEPROM.filled x00) 3 = x00 /\
  EEPROM.read (EEPROM.filled x00) 600 = x00 /\
  EEPROM.read (device (write wrapped_store (EEPROM.filled x00) KAL_MAN [x42] 1)) 2 = x01 /\
  EEPROM.read (device (write wrapped_store (EEPROM.filled x00) KAL_MAN [x42] 1)) 3 = x42 /\
  EEPROM.read (device (write wrapped_store (EEPROM.filled x00) KAL_MAN [x42] 1)) 600 = xff.
Proof.
  assert (Hidx : findFileIndex wrapped_store KAL_MAN <> -1) by (vm_compute; discriminate).
  assert (Hrec : record_of wrapped_store KAL_MAN =
                 {| type := KAL_MAN; maxSize := 65535; startAddr := 2; endAddr := 1;
                    dataLen := 0; enabled := true; modified := false |}) by reflexivity.
  assert (Hw : write wrapped_store (EEPROM.filled x00) KAL_MAN [x42] 1 =
               mkEffect Done
                 (set_file wrapped_store (findFileIndex wrapped_store KAL_MAN)
                    (with_write (record_of wrapped_store KAL_MAN) 1))
                 (store_record (EEPROM.filled x00) 2 1 65535 [x42])).
  { rewrite write_passes; rewrite ?Hrec; cbn [startAddr maxSize enabled];
      first [reflexivity | done | lia]. }
  split; [exact wrapped_store_reachable|].
  split; [by rewrite Hrec|]. rewrite Hw. cbn [outcome device succeeded].
  split; [reflexivity|]. split; [reflexivity|]. split; [reflexivity|].
  split; [reflexivity|]. unfold EEPROM.read.
  split; [apply store_record_marker; lia|].
  split; [change 3 with (2 + 1 + 0); apply store_record_payload; lia|].
  apply store_record_padding; lia.
Qed.

(** * Further properties of the code *)

(** ** Lookup *)

(** X1. [findFileIndex] returns -1 exactly when no registered slot holds
    the identifier, and otherwise the lowest registered slot that does. *)
Theorem X1_findFileIndex_least s ty :
  (findFileIndex s ty = -1 /\
   forall j, 0 <= j < fileCount s -> type (file_at s j) <> ty) \/
  (0 <= findFileIndex s ty < fileCount s /\
   type (file_at s (findFileIndex s ty)) = ty /\
   forall j, 0 <= j < findFileIndex s ty -> type (file_at s j) <> ty).
Proof.
  destruct (Z.eq_dec (findFileIndex s ty) (-1)) as [Hnone|Hsome].
  - left. split; [exact Hnone|]. intros j Hj. by apply findFileIndex_absent.
  - right. destruct (findFileIndex_found s ty Hsome) as [Hr Hty].
    split; [exact Hr|]. split; [exact Hty|].
    intros j Hj. by apply findFileIndex_first.
Qed.

Lemma findFileIndex_none s ty :
  (forall j, 0 <= j < fileCount s -> type (file_at s j) <> ty) ->
  findFileIndex s ty = -1.
Proof.
  intros Hall. destruct (Z.eq_dec (findFileIndex s ty) (-1)) as [|Hsome]; [done|].
  destruct (findFileIndex_found s ty Hsome) as [Hr Hty]. by destruct (Hall _ Hr).
Qed.

Lemma findFileIndex_is s ty r :
  0 <= r < fileCount s ->
  type (file_at s r) = ty ->
  (forall j, 0 <= j < r -> type (file_at s j) <> ty) ->
  findFileIndex s ty = r.
Proof.
  intros Hr Hty Hleast.
  destruct (Z.eq_dec (findFileIndex s ty) (-1)) as [Hnone|Hsome].
  - by destruct (findFileIndex_absent s ty r Hnone Hr).
  - destruct (findFileIndex_found s ty Hsome) as [Hf Hfty].
    destruct (Z.lt_trichotomy (findFileIndex s ty) r) as [Hlt|[Heq|Hgt]]; [|done|].
    + by destruct (Hleast (findFileIndex s ty) ltac:(lia)).
    + by destruct (findFileIndex_first s ty r Hsome ltac:(lia)).
Qed.

(** The slots of the table after a registration that was admitted. *)
Lemma file_at_appended fs c e e' c' f j :
  0 <= c -> (Z.to_nat c < length fs)%nat -> 0 <= j ->
  file_at {| files := <[Z.to_nat c := f]> fs; fileCount := c'; is_enabled := e' |} j =
  if j =? c then f else file_at {| files := fs; fileCount := c; is_enabled := e |} j.
Proof.
  intros Hc Hlt Hj. unfold file_at. cbn [files].
  destruct (Z.eqb_spec j c) as [->|Hne].
  - by rewrite list_lookup_insert_eq.
  - rewrite list_lookup_insert_ne; [done | lia].
Qed.

(** A registration that was admitted, on a well-formed table. *)
Lemma registerAuto_done_inv s ty maxSz :
  table_ok s ->
  (registerAuto s ty maxSz).1 = Done ->
  fileCount s < EEFILE_MAX_FILES /\
  findFileIndex s ty = -1 /\
  calculateNextAddr s + to_uint16 (maxSz + 1) <= EEFILE_TOTAL_SIZE /\
  fileCount (registerAuto s ty maxSz).2 = fileCount s + 1 /\
  is_enabled (registerAuto s ty maxSz).2 = is_enabled s /\
  length (files (registerAuto s ty maxSz).2) = length (files s) /\
  forall j, 0 <= j ->
    file_at (registerAuto s ty maxSz).2 j =
    if j =? fileCount s
    then {| type := ty; maxSize := maxSz; startAddr := calculateNextAddr s;
            endAddr := to_uint16 (calculateNextAddr s + to_uint16 (maxSz + 1) - 1);
            dataLen := 0; enabled := true; modified := false |}
    else file_at s j.
Proof.
  intros Hok Hdone. pose proof (ok_count s Hok) as Hcnt. pose proof (ok_slots s Hok) as Hsl.
  destruct (Z_lt_ge_dec (fileCount s) EEFILE_MAX_FILES) as [Hroom|Hfull].
  2:{ by rewrite registerAuto_full in Hdone. }
  destruct (Z.eq_dec (findFileIndex s ty) (-1)) as [Hnone|Hdup].
  2:{ by rewrite registerAuto_duplicate in Hdone. }
  destruct (Z_gt_le_dec (calculateNextAddr s + to_uint16 (maxSz + 1)) EEFILE_TOTAL_SIZE)
    as [Hbig|Hfit].
  { by rewrite registerAuto_no_space in Hdone. }
  rewrite registerAuto_admits by done. cbn [fst snd fileCount is_enabled files].
  split; [done|]. split; [done|]. split; [done|].
  split; [unfold to_uint8, EEFILE_MAX_FILES in *; apply Z.mod_small; lia|].
  split; [done|]. split; [apply length_insert|].
  intros j Hj.
  rewrite (file_at_appended _ (fileCount s) (is_enabled s));
    [by destruct s | first [lia | unfold EEFILE_MAX_FILES in *; lia] ..].
Qed.

(** ** Invariants of the table *)

Lemma ids_unique_set_file s i f :
  ids_unique s -> type f = type (file_at s i) -> ids_unique (set_file s i f).
Proof.
  intros Hu Hty a b Ha Hb. cbn [fileCount set_file] in Ha, Hb.
  rewrite !(file_at_set_file_field type) by done. by apply Hu.
Qed.

Lemma ids_unique_registerAuto s ty maxSz :
  table_ok s -> ids_unique s -> ids_unique (registerAuto s ty maxSz).2.
Proof.
  intros Hok Hu.
  destruct (registerAuto s ty maxSz).1 eqn:Ho;
    try (rewrite registerAuto_failed_unchanged by (by rewrite Ho); exact Hu).
  destruct (registerAuto_done_inv s ty maxSz Hok Ho)
    as (Hroom & Hnone & _ & Hcnt & _ & _ & Hat).
  intros a b Ha Hb. rewrite Hcnt in Ha, Hb. rewrite !Hat by lia.
  destruct (Z.eqb_spec a (fileCount s)) as [->|Hna];
    destruct (Z.eqb_spec b (fileCount s)) as [->|Hnb]; cbn [type]; try done.
  - intros He. by destruct (findFileIndex_absent s ty b Hnone ltac:(lia)).
  - intros He. by destruct (findFileIndex_absent s ty a Hnone ltac:(lia)).
  - apply Hu; lia.
Qed.

Lemma reachable_ids_unique s : reachable s -> ids_unique s.
Proof.
  induction 1 as [|s Hr IH|s Hr IH|s Hr IH|s ty m Hr IH Hm|s dev ty data len Hr IH Hl
                  |s dev ty Hr IH|s ty b Hr IH|s ty Hr IH].
  - intros i j Hi. cbn in Hi. lia.
  - exact IH.
  - exact IH.
  - exact IH.
  - apply ids_unique_registerAuto; [by apply reachable_table_ok | exact IH].
  - destruct (succeeded (outcome (write s dev ty data len))) eqn:Ho.
    + rewrite write_reachable by done. cbn [store]. by apply ids_unique_set_file.
    + by rewrite (proj1 (write_failed_unchanged _ _ _ _ _ Ho)).
  - destruct (succeeded (outcome (erase s dev ty))) eqn:Ho.
    + destruct (erase_succeeded_inv _ _ _ Ho) as (_ & _ & ->). cbn [store].
      by apply ids_unique_set_file.
    + by rewrite (proj1 (erase_failed_unchanged _ _ _ Ho)).
  - destruct (Z.eq_dec (findFileIndex s ty) (-1)) as [Hn|Hs].
    + unfold setFileEnabled. cbn zeta. by rewrite Hn.
    + rewrite setFileEnabled_found by done. by apply ids_unique_set_file.
  - unfold clearModifiedFlag. cbn zeta.
    destruct (Z.eqb_spec (findFileIndex s ty) (-1)); [done|].
    cbn [negb]. by apply ids_unique_set_file.
Qed.

(** X2. In every table that the public methods can produce, registered
    identifiers are pairwise distinct, so every registered slot is the one
    its own identifier is looked up at. *)
Theorem X2_identifiers_unique s :
  reachable s ->
  ids_unique s /\
  forall i, 0 <= i < fileCount s -> findFileIndex s (type (file_at s i)) = i.
Proof.
  intros Hr. pose proof (reachable_ids_unique s Hr) as Hu.
  split; [exact Hu|]. intros i Hi.
  apply findFileIndex_is; [done | done |].
  intros j Hj He. specialize (Hu j i ltac:(lia) Hi He). lia.
Qed.

(** On the sketch's table, slot 1 is where [KAL_MAN] is found. *)
Lemma X2_identifiers_unique_witness :
  reachable sketch_store /\
  findFileIndex sketch_store (type (file_at sketch_store 1)) = 1.
Proof.
  split; [exact sketch_store_reachable|].
  apply (proj2 (X2_identifiers_unique sketch_store sketch_store_reachable)).
  vm_compute. split; [discriminate | reflexivity].
Defined.

(** X3. In every reachable table the array has its ten slots,
    [fileCount] stays within them, and every registered descriptor has a
    16-bit [maxSize] and [endAddr], a [startAddr] between 0 and the region
    size, and a [dataLen] that does not exceed [maxSize]. *)
Theorem X3_table_bounds s :
  reachable s ->
  length (files s) = 10%nat /\
  0 <= fileCount s <= EEFILE_MAX_FILES /\
  forall i, 0 <= i < fileCount s ->
    0 <= maxSize (file_at s i) <= 65535 /\
    0 <= startAddr (file_at s i) <= EEFILE_TOTAL_SIZE /\
    0 <= endAddr (file_at s i) <= 65535 /\
    0 <= dataLen (file_at s i) <= maxSize (file_at s i).
Proof.
  intros Hr. apply reachable_table_ok in Hr. destruct Hr as [H1 H2 H3 H4 H5].
  split; [exact H1|]. split; [exact H2|]. intros i Hi.
  destruct (H3 i Hi) as [G1 G2 G3 G4 G5].
  pose proof (to_uint16_range (maxSize (file_at s i) + 1)) as Ha.
  pose proof (to_uint16_range
                (startAddr (file_at s i) + to_uint16 (maxSize (file_at s i) + 1) - 1)) as Hb.
  rewrite <- G4 in Hb. unfold is_uint16 in *. repeat split; lia.
Qed.

Lemma X3_table_bounds_witness :
  reachable sketch_store /\ 0 <= fileCount sketch_store <= EEFILE_MAX_FILES.
Proof.
  split; [exact sketch_store_reachable|].
  exact (proj1 (proj2 (X3_table_bounds sketch_store sketch_store_reachable))).
Defined.

(** ** Registering, then looking up *)

(** X4. After a registration that was admitted, the identifier is found
    at the slot that was free, [getFileAddr] is the address the allocator
    computed, the record is empty, enabled and unmodified, and every other
    identifier is found where it was, with the descriptor it had. *)
Theorem X4_register_then_lookup s ty maxSz :
  reachable s ->
  (registerAuto s ty maxSz).1 = Done ->
  let s' := (registerAuto s ty maxSz).2 in
  fileCount s' = fileCount s + 1 /\
  findFileIndex s' ty = fileCount s /\
  getFileAddr s' ty = calculateNextAddr s /\
  maxSize (record_of s' ty) = maxSz /\
  getFileDataLen s' ty = 0 /\
  isFileEnabled s' ty = true /\
  isFileModified s' ty = false /\
  forall ty', ty' <> ty ->
    findFileIndex s' ty' = findFileIndex s ty' /\
    (findFileIndex s ty' <> -1 -> record_of s' ty' = record_of s ty').
Proof.
  intros Hr Hdone s'. pose proof (reachable_table_ok s Hr) as Hok.
  pose proof (ok_count s Hok) as Hc.
  destruct (registerAuto_done_inv s ty maxSz Hok Hdone)
    as (Hroom & Hnone & _ & Hcnt & _ & _ & Hat).
  fold s' in Hcnt, Hat.
  assert (Hnew : file_at s' (fileCount s) =
                 {| type := ty; maxSize := maxSz; startAddr := calculateNextAddr s;
                    endAddr := to_uint16 (calculateNextAddr s + to_uint16 (maxSz + 1) - 1);
                    dataLen := 0; enabled := true; modified := false |}).
  { rewrite Hat by lia. by rewrite Z.eqb_refl. }
  assert (Hold : forall j, 0 <= j < fileCount s -> file_at s' j = file_at s j).
  { intros j Hj. rewrite Hat by lia. by destruct (Z.eqb_spec j (fileCount s)); [lia|]. }
  assert (Hfind : findFileIndex s' ty = fileCount s).
  { apply findFileIndex_is; [lia | by rewrite Hnew |].
    intros j Hj. rewrite Hold by done. by apply findFileIndex_absent. }
  assert (Hfound : findFileIndex s' ty <> -1) by lia.
  split; [exact Hcnt|]. split; [exact Hfind|].
  rewrite getFileDataLen_found, isFileEnabled_found, isFileModified_found by done.
  unfold getFileAddr, record_of. cbn zeta. rewrite Hfind, Hnew.
  destruct (Z.eqb_spec (fileCount s) (-1)); [lia|]. cbn [negb startAddr maxSize dataLen
    enabled modified].
  repeat (split; [reflexivity|]).
  intros ty' Hne.
  destruct (Z.eq_dec (findFileIndex s ty') (-1)) as [Hn'|Hs'].
  - split; [|done]. rewrite Hn'. apply findFileIndex_none. intros j Hj.
    destruct (Z.eq_dec j (fileCount s)) as [->|Hj'].
    + rewrite Hnew. cbn [type]. congruence.
    + rewrite Hold by lia. apply findFileIndex_absent; [done | lia].
  - destruct (findFileIndex_found s ty' Hs') as [Hr' Hty'].
    assert (Hf' : findFileIndex s' ty' = findFileIndex s ty').
    { apply findFileIndex_is; [lia | by rewrite Hold |].
      intros j Hj. rewrite Hold by lia. by apply findFileIndex_first. }
    split; [exact Hf'|]. intros _. rewrite Hf'. by apply Hold.
Qed.

(** Registering a fourth record on the sketch's table. *)
Lemma X4_register_then_lookup_witness :
  reachable sketch_store /\
  (registerAuto sketch_store END 8).1 = Done /\
  findFileIndex (registerAuto sketch_store END 8).2 END = 3.
Proof.
  split; [exact sketch_store_reachable|]. split; [reflexivity|].
  exact (proj1 (proj2 (X4_register_then_lookup sketch_store END 8
                         sketch_store_reachable eq_refl))).
Defined.

(** ** What no method changes *)

Lemma step_reachable s s' : reachable s -> step s s' -> reachable s'.
Proof.
  intros Hr Hs. destruct Hs; by constructor.
Qed.

(** X5. A call of any public method leaves every registered descriptor's
    identifier, [maxSize], [startAddr] and [endAddr] as they were, keeps
    the result reachable, and never removes a record: [fileCount] stays or
    grows by one. *)
Theorem X5_placement_immutable s s' :
  reachable s -> step s s' ->
  reachable s' /\
  fileCount s <= fileCount s' <= fileCount s + 1 /\
  forall i, 0 <= i < fileCount s ->
    placement (file_at s' i) = placement (file_at s i).
Proof.
  intros Hr Hs. split; [by apply (step_reachable s)|].
  pose proof (reachable_table_ok s Hr) as Hok.
  assert (Hset : forall i f, placement f = placement (file_at s i) ->
            fileCount s <= fileCount (set_file s i f) <= fileCount s + 1 /\
            forall j, 0 <= j < fileCount s ->
              placement (file_at (set_file s i f) j) = placement (file_at s j)).
  { intros i f Hp. split; [cbn [fileCount set_file]; lia|].
    intros j _. by apply (file_at_set_file_field placement). }
  assert (Hsame : fileCount s <= fileCount s <= fileCount s + 1 /\
            forall i, 0 <= i < fileCount s ->
              placement (file_at s i) = placement (file_at s i))
    by (split; [lia | done]).
  destruct Hs as [s|s|s|s ty m Hm|s dev ty data len Hl|s dev ty|s ty b|s ty];
    try exact Hsame.
  - destruct (registerAuto s ty m).1 eqn:Ho;
      try (rewrite registerAuto_failed_unchanged by (by rewrite Ho); exact Hsame).
    destruct (registerAuto_done_inv s ty m Hok Ho) as (_ & _ & _ & Hcnt & _ & _ & Hat).
    split; [lia|]. intros i Hi. rewrite Hat by lia.
    by destruct (Z.eqb_spec i (fileCount s)); [lia|].
  - destruct (succeeded (outcome (write s dev ty data len))) eqn:Ho.
    + rewrite write_reachable by done. cbn [store]. by apply Hset.
    + by rewrite (proj1 (write_failed_unchanged _ _ _ _ _ Ho)).
  - destruct (succeeded (outcome (erase s dev ty))) eqn:Ho.
    + destruct (erase_succeeded_inv _ _ _ Ho) as (_ & _ & ->). cbn [store].
      by apply Hset.
    + by rewrite (proj1 (erase_failed_unchanged _ _ _ Ho)).
  - destruct (Z.eq_dec (findFileIndex s ty) (-1)) as [Hn|Hf].
    + unfold setFileEnabled. cbn zeta. by rewrite Hn.
    + rewrite setFileEnabled_found by done. by apply Hset.
  - unfold clearModifiedFlag. cbn zeta.
    destruct (Z.eqb_spec (findFileIndex s ty) (-1)); [done|].
    cbn [negb]. by apply Hset.
Qed.

(** The sketch's first write leaves the placement of [KAL_MAN] alone. *)
Lemma X5_placement_immutable_witness :
  reachable sketch_store /\
  step sketch_store (store sketch_written) /\
  placement (file_at (store sketch_written) 1) = placement (file_at sketch_store 1).
Proof.
  assert (Hs : step sketch_store (store sketch_written))
    by (apply step_write; unfold is_uint16; lia).
  split; [exact sketch_store_reachable|]. split; [exact Hs|].
  apply (proj2 (proj2 (X5_placement_immutable sketch_store (store sketch_written)
                         sketch_store_reachable Hs))).
  vm_compute. split; [discriminate | reflexivity].
Defined.

(** ** Space accounting, for sizes that do not wrap *)

Lemma charged_ext s s' n :
  (forall k, 0 <= k < Z.of_nat n -> maxSize (file_at s' k) = maxSize (file_at s k)) ->
  charged s' n = charged s n.
Proof.
  induction n as [|n IH]; intros Hsame; [reflexivity|].
  cbn [charged]. rewrite IH by (intros k Hk; apply Hsame; lia).
  rewrite Hsame by lia. reflexivity.
Qed.

Lemma startAddr_charged s :
  reachable s -> plain_sizes s ->
  forall n : nat, Z.of_nat n < fileCount s ->
    startAddr (file_at s (Z.of_nat n)) = charged s n.
Proof.
  intros Hr Hplain.
  destruct (layout_contiguous s Hr Hplain) as (Hfirst & Hnext & Hend).
  induction n as [|n IH]; intros Hn.
  - apply Hfirst. lia.
  - rewrite Hnext by lia.
    replace (Z.of_nat (S n) - 1) with (Z.of_nat n) by lia.
    destruct (Hend (Z.of_nat n) ltac:(lia)) as [He _].
    rewrite He, IH by lia. cbn [charged]. lia.
Qed.

Lemma calculateNextAddr_used s :
  reachable s -> plain_sizes s -> calculateNextAddr s = used_bytes s.
Proof.
  intros Hr Hplain. rewrite calculateNextAddr_plain by done.
  unfold spec_next_free, used_bytes.
  pose proof (ok_count s (reachable_table_ok s Hr)) as Hc.
  destruct (Z.eqb_spec (fileCount s) 0) as [->|Hne]; [reflexivity|].
  destruct (layout_contiguous s Hr Hplain) as (_ & _ & Hend).
  destruct (Hend (fileCount s - 1) ltac:(lia)) as [He _]. rewrite He.
  replace (Z.to_nat (fileCount s)) with (S (Z.to_nat (fileCount s - 1))) by lia.
  cbn [charged]. rewrite <- (startAddr_charged s Hr Hplain) by lia.
  rewrite Z2Nat.id by lia. lia.
Qed.

(** X6. If no registered record has the size 65535, then every record
    starts at the sum of [maxSize + 1] over the records registered before
    it, ends at [startAddr + maxSize] inside the region, and lies entirely
    below every record registered after it; and the next free address is
    the sum over all records, never above the region size. *)
Theorem X6_layout_plain s :
  reachable s -> plain_sizes s ->
  (forall i, 0 <= i < fileCount s ->
     startAddr (file_at s i) = charged s (Z.to_nat i) /\
     endAddr (file_at s i) = startAddr (file_at s i) + maxSize (file_at s i) /\
     endAddr (file_at s i) < EEFILE_TOTAL_SIZE) /\
  (forall i j, 0 <= i < j -> j < fileCount s ->
     endAddr (file_at s i) < startAddr (file_at s j)) /\
  calculateNextAddr s = used_bytes s /\
  used_bytes s <= EEFILE_TOTAL_SIZE.
Proof.
  intros Hr Hplain.
  destruct (layout_contiguous s Hr Hplain) as (_ & _ & Hend).
  split; [|split; [|split]].
  - intros i Hi. split; [|by apply Hend].
    rewrite <- (startAddr_charged s Hr Hplain) by lia. by rewrite Z2Nat.id by lia.
  - by apply layout_disjoint.
  - by apply calculateNextAddr_used.
  - rewrite <- calculateNextAddr_used by done.
    apply calculateNextAddr_range. by apply reachable_table_ok.
Qed.

Lemma sketch_store_plain : plain_sizes sketch_store.
Proof.
  intros i Hi. change (fileCount sketch_store) with 3 in Hi.
  assert (Hcases : i = 0 \/ i = 1 \/ i = 2) by lia.
  destruct Hcases as [-> | [-> | ->]]; vm_compute; discriminate.
Defined.

(** The sketch's table: 2 + 5 + 17 = 24 bytes are in use. *)
Lemma X6_layout_plain_witness :
  reachable sketch_store /\ plain_sizes sketch_store /\
  calculateNextAddr sketch_store = used_bytes sketch_store /\
  used_bytes sketch_store = 24.
Proof.
  split; [exact sketch_store_reachable|]. split; [exact sketch_store_plain|].
  split; [|reflexivity].
  exact (proj1 (proj2 (proj2 (X6_layout_plain sketch_store sketch_store_reachable
                                sketch_store_plain)))).
Defined.

Lemma registerAuto_found_at s ty maxSz :
  table_ok s ->
  (registerAuto s ty maxSz).1 = Done ->
  findFileIndex (registerAuto s ty maxSz).2 ty = fileCount s.
Proof.
  intros Hok Hdone. pose proof (ok_count s Hok) as Hc.
  destruct (registerAuto_done_inv s ty maxSz Hok Hdone)
    as (_ & Hnone & _ & Hcnt & _ & _ & Hat).
  apply findFileIndex_is; [lia | |].
  - rewrite Hat by lia. by rewrite Z.eqb_refl.
  - intros j Hj. rewrite Hat by lia.
    destruct (Z.eqb_spec j (fileCount s)); [lia|]. by apply findFileIndex_absent.
Qed.

(** X7. On such a table and for a size below 65535, [registerAuto]
    refuses when the table is full, else when the identifier is registered,
    else when the bytes in use plus [maxSize + 1] exceed the region, and
    admits otherwise; an admitted record starts at the bytes in use so far,
    ends [maxSize] later, and adds [maxSize + 1] to the bytes in use. *)
Theorem X7_registration_criterion s ty maxSz :
  reachable s -> plain_sizes s -> 0 <= maxSz < 65535 ->
  let s' := (registerAuto s ty maxSz).2 in
  (registerAuto s ty maxSz).1 =
    (if fileCount s >=? EEFILE_MAX_FILES then MaxFilesReached
     else if negb (findFileIndex s ty =? -1) then AlreadyRegistered
     else if used_bytes s + maxSz + 1 >? EEFILE_TOTAL_SIZE then NotEnoughSpace
     else Done) /\
  ((registerAuto s ty maxSz).1 = Done ->
   plain_sizes s' /\
   startAddr (record_of s' ty) = used_bytes s /\
   endAddr (record_of s' ty) = used_bytes s + maxSz /\
   used_bytes s' = used_bytes s + maxSz + 1).
Proof.
  intros Hr Hplain Hm s'.
  pose proof (reachable_table_ok s Hr) as Hok. pose proof (ok_count s Hok) as Hc.
  pose proof (calculateNextAddr_used s Hr Hplain) as Hused.
  pose proof (calculateNextAddr_range s Hok) as Hrange.
  rewrite EEFILE_TOTAL_SIZE_eq in Hrange.
  assert (Hact : to_uint16 (maxSz + 1) = maxSz + 1)
    by (apply to_uint16_small; unfold is_uint16; lia).
  split.
  - destruct (Z.geb_spec (fileCount s) EEFILE_MAX_FILES) as [Hfull|Hroom].
    { rewrite registerAuto_full; [done | lia]. }
    destruct (Z.eqb_spec (findFileIndex s ty) (-1)) as [Hnone|Hdup]; cbn [negb].
    2:{ by rewrite registerAuto_duplicate. }
    destruct (Z.gtb_spec (used_bytes s + maxSz + 1) EEFILE_TOTAL_SIZE) as [Hbig|Hfit].
    + rewrite registerAuto_no_space; [done | done | done |]. rewrite Hact, Hused. lia.
    + rewrite registerAuto_admits; [done | done | done |]. rewrite Hact, Hused. lia.
  - intros Hdone.
    destruct (registerAuto_done_inv s ty maxSz Hok Hdone)
      as (Hroom & Hnone & Hfit & Hcnt & _ & _ & Hat).
    fold s' in Hcnt, Hat.
    assert (Hreach : reachable s')
      by (apply reach_registerAuto; [done | unfold is_uint16; lia]).
    assert (Hfind : findFileIndex s' ty = fileCount s).
    { by apply registerAuto_found_at. }
    assert (Hplain' : plain_sizes s').
    { intros i Hi. rewrite Hcnt in Hi. rewrite Hat by lia.
      destruct (Z.eqb_spec i (fileCount s)); [cbn [maxSize]; lia | apply Hplain; lia]. }
    split; [exact Hplain'|].
    unfold record_of. rewrite Hfind, Hat by lia. rewrite Z.eqb_refl.
    cbn [startAddr endAddr]. rewrite Hact, Hused in *.
    rewrite EEFILE_TOTAL_SIZE_eq in Hfit.
    split; [reflexivity|]. split.
    + rewrite to_uint16_small by (unfold is_uint16; lia). lia.
    + unfold used_bytes at 1. rewrite Hcnt.
      replace (Z.to_nat (fileCount s + 1)) with (S (Z.to_nat (fileCount s))) by lia.
      cbn [charged]. rewrite Z2Nat.id by lia. rewrite Hat by lia.
      rewrite Z.eqb_refl. cbn [maxSize].
      rewrite (charged_ext s s'); [unfold used_bytes; lia|].
      intros k Hk. rewrite Hat by lia.
      by destruct (Z.eqb_spec k (fileCount s)); [lia|].
Qed.

(** A fourth record of 8 bytes on the sketch's table: 24 + 9 = 33. *)
Lemma X7_registration_criterion_witness :
  reachable sketch_store /\ plain_sizes sketch_store /\ 0 <= 8 < 65535 /\
  (registerAuto sketch_store END 8).1 = Done /\
  used_bytes (registerAuto sketch_store END 8).2 = used_bytes sketch_store + 8 + 1.
Proof.
  assert (H8 : 0 <= 8 < 65535) by lia.
  split; [exact sketch_store_reachable|]. split; [exact sketch_store_plain|].
  split; [exact H8|]. split; [reflexivity|].
  exact (proj2 (proj2 (proj2 (proj2 (X7_registration_criterion sketch_store END 8
            sketch_store_reachable sketch_store_plain H8) eq_refl)))).
Defined.

(** ** Refusals *)

Lemma read_failed_unchanged s dev ty buf len :
  succeeded (read s dev ty buf len).1 = false -> (read s dev ty buf len).2 = buf.
Proof.
  unfold read. destruct (negb (is_enabled s)); [done|]. cbn zeta.
  destruct (findFileIndex s ty =? -1); [done|].
  destruct (negb (enabled _)); [done|].
  by destruct (negb (Byte.eqb _ x01)).
Qed.

(** X8. A call of [registerAuto], [write], [read] or [erase] that
    returns false has changed nothing: not the table, not the device, not
    the caller's buffer. *)
Theorem X8_refused_calls_change_nothing s dev ty data buf len maxSz :
  (succeeded (registerAuto s ty maxSz).1 = false ->
   (registerAuto s ty maxSz).2 = s) /\
  (succeeded (outcome (write s dev ty data len)) = false ->
   store (write s dev ty data len) = s /\ device (write s dev ty data len) = dev) /\
  (succeeded (read s dev ty buf len).1 = false ->
   (read s dev ty buf len).2 = buf) /\
  (succeeded (outcome (erase s dev ty)) = false ->
   store (erase s dev ty) = s /\ device (erase s dev ty) = dev).
Proof.
  split; [apply registerAuto_failed_unchanged|].
  split; [apply write_failed_unchanged|].
  split; [apply read_failed_unchanged | apply erase_failed_unchanged].
Qed.

(** A five-byte write to the four-byte [KAL_MAN] record of the sketch. *)
Lemma X8_refused_calls_change_nothing_witness :
  succeeded (outcome (write sketch_store (EEPROM.filled xff) KAL_MAN
                        [x01; x02; x03; x04; x05] 5)) = false /\
  store (write sketch_store (EEPROM.filled xff) KAL_MAN [x01; x02; x03; x04; x05] 5)
    = sketch_store.
Proof.
  split; [reflexivity|].
  exact (proj1 (proj1 (proj2 (X8_refused_calls_change_nothing sketch_store
            (EEPROM.filled xff) KAL_MAN [x01; x02; x03; x04; x05] [] 5 0)) eq_refl)).
Defined.

(** X9. For an identifier that is not registered, the accessors answer 0
    or false, [setFileEnabled] and [clearModifiedFlag] leave the table as
    it is, [setFileValid] leaves the device as it is, and [write], [read]
    and [erase] return false. *)
Theorem X9_unregistered_identifier s dev ty data buf len b :
  findFileIndex s ty = -1 ->
  getFileDataLen s ty = 0 /\
  getFileAddr s ty = 0 /\
  isFileEnabled s ty = false /\
  isFileModified s ty = false /\
  isFileValid s dev ty = false /\
  setFileEnabled s ty b = s /\
  clearModifiedFlag s ty = s /\
  setFileValid s dev ty b = mkEffect TypeNotFound s dev /\
  succeeded (outcome (write s dev ty data len)) = false /\
  succeeded (read s dev ty buf len).1 = false /\
  succeeded (outcome (erase s dev ty)) = false /\
  (is_enabled s = true ->
   outcome (write s dev ty data len) = TypeNotFound /\
   (read s dev ty buf len).1 = TypeNotFound /\
   outcome (erase s dev ty) = TypeNotFound).
Proof.
  intros Hn.
  unfold getFileDataLen, getFileAddr, isFileEnabled, isFileModified, isFileValid,
    setFileEnabled, clearModifiedFlag, setFileValid, write, read, erase.
  cbn zeta. rewrite Hn. cbn [Z.eqb negb Pos.eqb].
  repeat (split; [by destruct (is_enabled s)|]).
  by destruct (is_enabled s).
Qed.

Lemma X9_unregistered_identifier_witness :
  findFileIndex sketch_store END = -1 /\
  getFileAddr sketch_store END = 0 /\
  setFileEnabled sketch_store END true = sketch_store.
Proof.
  split; [reflexivity|].
  pose proof (X9_unregistered_identifier sketch_store (EEPROM.filled xff) END [] [] 0 true
                eq_refl) as H.
  split; [exact (proj1 (proj2 H)) | exact (proj1 (proj2 (proj2 (proj2 (proj2 (proj2 H))))))].
Defined.

Lemma findFileIndex_set_is_enabled s b ty :
  findFileIndex (set_is_enabled s b) ty = findFileIndex s ty.
Proof. by apply findFileIndex_ext. Qed.

(** X10. The store-wide switch is off after construction and follows the
    last of [begin], [enable], [disable], none of which touches a
    descriptor.  While it is off, [write], [read] and [erase] return false
    at their first check, whatever the arguments.  Registration and the
    validity marker do not consult it: [registerAuto] gives the same answer
    and the same descriptors, [isFileValid] the same answer and
    [setFileValid] the same device, whichever way the switch is set. *)
Theorem X10_store_switch s dev ty data buf len maxSz b v :
  is_enabled EEFILE_new = false /\
  (is_enabled (begin s), is_enabled (enable s), is_enabled (disable s))
    = (true, true, false) /\
  (files (set_is_enabled s b), fileCount (set_is_enabled s b)) = (files s, fileCount s) /\
  (is_enabled s = false ->
   write s dev ty data len = mkEffect EepromDisabled s dev /\
   read s dev ty buf len = (EepromDisabled, buf) /\
   erase s dev ty = mkEffect EepromDisabled s dev) /\
  registerAuto (set_is_enabled s b) ty maxSz =
    ((registerAuto s ty maxSz).1, set_is_enabled (registerAuto s ty maxSz).2 b) /\
  isFileValid (set_is_enabled s b) dev ty = isFileValid s dev ty /\
  device (setFileValid (set_is_enabled s b) dev ty v) = device (setFileValid s dev ty v).
Proof.
  split; [reflexivity|]. split; [reflexivity|]. split; [reflexivity|].
  split; [intros Hoff; unfold write, read, erase; by rewrite Hoff|].
  split; [|split].
  - unfold registerAuto. rewrite findFileIndex_set_is_enabled.
    change (fileCount (set_is_enabled s b)) with (fileCount s).
    change (calculateNextAddr (set_is_enabled s b)) with (calculateNextAddr s).
    destruct (fileCount s >=? EEFILE_MAX_FILES); [done|].
    destruct (negb (findFileIndex s ty =? -1)); [done|]. cbn zeta.
    by destruct (_ >? EEFILE_TOTAL_SIZE).
  - unfold isFileValid. cbn zeta. by rewrite findFileIndex_set_is_enabled.
  - unfold setFileValid. cbn zeta. rewrite findFileIndex_set_is_enabled.
    by destruct (findFileIndex s ty =? -1).
Qed.

(** A table filled before [begin()]: its write is refused. *)
Lemma X10_store_switch_witness :
  is_enabled unstarted_store = false /\
  write unstarted_store (EEPROM.filled xff) IIC_START [x42] 1 =
    mkEffect EepromDisabled unstarted_store (EEPROM.filled xff).
Proof.
  split; [reflexivity|].
  exact (proj1 (proj1 (proj2 (proj2 (proj2 (X10_store_switch unstarted_store
            (EEPROM.filled xff) IIC_START [x42] [] 1 0 true true)))) eq_refl)).
Defined.

(** ** The device writes of [write], one by one *)

Lemma for_loop_ext {St} (body body' : Z -> St -> St) n : forall i st,
  (forall j x, i <= j < i + Z.of_nat n -> body j x = body' j x) ->
  for_loop n i body st = for_loop n i body' st.
Proof.
  induction n as [|n IH]; intros i st Hsame; [reflexivity|].
  cbn [for_loop]. rewrite Hsame by lia. apply IH. intros j x Hj. apply Hsame. lia.
Qed.

Lemma for_loop_app {St} (body : Z -> St -> St) n1 n2 : forall i st,
  for_loop (n1 + n2) i body st =
  for_loop n2 (i + Z.of_nat n1) body (for_loop n1 i body st).
Proof.
  induction n1 as [|n1 IH]; intros i st.
  - cbn [for_loop Nat.add]. by rewrite Z.add_0_r.
  - cbn [for_loop Nat.add]. rewrite IH. f_equal. lia.
Qed.

Lemma write_loop_shift a val n : forall i d,
  for_loop n i (write_step (a + 1) val) d =
  for_loop n (i + 1) (write_step a (fun j => val (j - 1))) d.
Proof.
  induction n as [|n IH]; intros i d; [reflexivity|].
  cbn [for_loop]. rewrite IH. f_equal. unfold write_step.
  replace (i + 1 - 1) with i by lia. f_equal. lia.
Qed.

(** The three steps of [write] are one run over the offsets
    [0 .. maxSize] of the record. *)
Lemma store_record_as_prefix dev a len m data :
  0 <= len <= m ->
  store_record dev a len m data = write_prefix dev a len data (Z.to_nat (m + 1)).
Proof.
  intros Hlen. unfold store_record, write_prefix, for_range.
  replace (Z.to_nat (m + 1)) with (1 + (Z.to_nat (len - 0) + Z.to_nat (m - len)))%nat by lia.
  rewrite (for_loop_app (write_step a (record_image data len)) 1).
  rewrite (for_loop_app (write_step a (record_image data len)) (Z.to_nat (len - 0))).
  change (for_loop 1 0 (write_step a (record_image data len)) dev)
    with (EEPROM.write dev (a + 0) x01).
  rewrite Z.add_0_r. rewrite !write_loop_shift.
  replace (0 + Z.of_nat 1 + Z.of_nat (Z.to_nat (len - 0))) with (len + 1) by lia.
  change (0 + Z.of_nat 1) with (0 + 1).
  rewrite (for_loop_ext (write_step a (fun j => byte_at data (j - 1)))
             (write_step a (record_image data len)) (Z.to_nat (len - 0))).
  - apply for_loop_ext. intros j x Hj. unfold write_step, record_image.
    destruct (Z.eqb_spec j 0); [lia|]. by destruct (Z.leb_spec j len); [lia|].
  - intros j x Hj. unfold write_step, record_image.
    destruct (Z.eqb_spec j 0); [lia|]. by destruct (Z.leb_spec j len); [|lia].
Qed.

Section WritePrefix.
Variables (dev : EEPROM.t) (a len : Z) (data : list byte).

Lemma write_prefix_inside (k : nat) j :
  0 <= j < Z.of_nat k ->
  EEPROM.cells (write_prefix dev a len data k) (a + j) = record_image data len j.
Proof.
  intros Hj. unfold write_prefix.
  apply (write_loop_inside a (record_image data len)). lia.
Qed.

Lemma write_prefix_outside (k : nat) b :
  b < a \/ a + Z.of_nat k <= b ->
  EEPROM.cells (write_prefix dev a len data k) b = EEPROM.cells dev b.
Proof.
  intros Hb. unfold write_prefix. apply write_loop_outside. lia.
Qed.

Lemma write_prefix_journal (k : nat) :
  EEPROM.journal (write_prefix dev a len data k) =
  EEPROM.journal dev ++
    ((fun j => (a + j, record_image data len j)) <$> seqZ 0 (Z.of_nat k)).
Proof. unfold write_prefix. apply write_loop_journal. Qed.

Lemma write_prefix_journal_prefix (k n : nat) :
  (k <= n)%nat ->
  EEPROM.journal (write_prefix dev a len data k)
    `prefix_of` EEPROM.journal (write_prefix dev a len data n).
Proof.
  intros Hk. rewrite !write_prefix_journal. apply prefix_app.
  replace (Z.of_nat n) with (Z.of_nat k + Z.of_nat (n - k)) by lia.
  rewrite seqZ_app by lia. rewrite fmap_app. by apply prefix_app_r.
Qed.
End WritePrefix.

(** A successful [write] on a reachable table, as one run of device
    writes. *)
Lemma write_device_as_prefix s dev ty data len :
  reachable s -> is_uint16 len ->
  succeeded (outcome (write s dev ty data len)) = true ->
  0 <= len <= maxSize (record_of s ty) /\
  device (write s dev ty data len) =
  write_prefix dev (startAddr (record_of s ty)) len data
    (Z.to_nat (maxSize (record_of s ty) + 1)).
Proof.
  intros Hr Hlen Hok.
  destruct (write_succeeded_inv _ _ _ _ _ Hok) as (_ & _ & _ & Hmax).
  assert (Hb : 0 <= len <= maxSize (record_of s ty)) by (unfold is_uint16 in Hlen; lia).
  split; [exact Hb|]. rewrite write_reachable by done. cbn [device].
  by apply store_record_as_prefix.
Qed.

(** X11. A successful [write] rewrites the whole record, whatever the
    payload length: it performs exactly [maxSize + 1] device writes, one to
    each address from [startAddr] to [startAddr + maxSize] in increasing
    order, so that afterwards no byte of that range depends on what the
    device held before. *)
Theorem X11_write_rewrites_whole_record s dev ty data len :
  reachable s -> is_uint16 len ->
  succeeded (outcome (write s dev ty data len)) = true ->
  let f := record_of s ty in
  let w := write s dev ty data len in
  EEPROM.journal (device w) =
    EEPROM.journal dev ++
      ((fun j => (startAddr f + j, record_image data len j)) <$> seqZ 0 (maxSize f + 1)) /\
  (drop (length (EEPROM.journal dev)) (EEPROM.journal (device w))).*1 =
    seqZ (startAddr f) (maxSize f + 1) /\
  (forall j, 0 <= j <= maxSize f ->
     EEPROM.read (device w) (startAddr f + j) = record_image data len j) /\
  (forall dev2 a, startAddr f <= a <= startAddr f + maxSize f ->
     EEPROM.read (device (write s dev2 ty data len)) a = EEPROM.read (device w) a).
Proof.
  intros Hr Hlen Hok f w.
  destruct (write_device_as_prefix s dev ty data len Hr Hlen Hok) as [Hb Hdev].
  fold f in Hb, Hdev. fold w in Hdev.
  assert (Hj : EEPROM.journal (device w) =
    EEPROM.journal dev ++
      ((fun j => (startAddr f + j, record_image data len j)) <$> seqZ 0 (maxSize f + 1))).
  { rewrite Hdev, write_prefix_journal. by rewrite Z2Nat.id by lia. }
  assert (Hcells : forall d, succeeded (outcome (write s d ty data len)) = true ->
            forall j, 0 <= j <= maxSize f ->
              EEPROM.read (device (write s d ty data len)) (startAddr f + j)
              = record_image data len j).
  { intros d Hd j Hjr.
    destruct (write_device_as_prefix s d ty data len Hr Hlen Hd) as [_ ->].
    unfold EEPROM.read. apply write_prefix_inside. fold f. lia. }
  split; [exact Hj|]. split; [|split].
  - rewrite Hj, drop_app_length, <- list_fmap_compose.
    replace (seqZ (startAddr f) (maxSize f + 1))
      with (seqZ (startAddr f + 0) (maxSize f + 1)) by (by rewrite Z.add_0_r).
    rewrite <- fmap_add_seqZ. by apply list_fmap_ext.
  - by apply Hcells.
  - intros dev2 a Ha.
    assert (Hok2 : succeeded (outcome (write s dev2 ty data len)) = true).
    { destruct (write_succeeded_inv _ _ _ _ _ Hok) as (He & Hidx & Hen & Hmax).
      destruct (reachable_record_ok s ty Hr Hidx) as [Hdesc _].
      rewrite write_passes; try done. by apply desc_ok_dataAddr. }
    replace a with (startAddr f + (a - startAddr f)) by lia.
    rewrite (Hcells dev2 Hok2), (Hcells dev Hok) by lia. reflexivity.
Qed.

(** The sketch's one-byte write to the one-byte record: two device
    writes, at 0 and 1. *)
Lemma X11_write_rewrites_whole_record_witness :
  reachable sketch_store /\ is_uint16 1 /\
  succeeded (outcome sketch_written) = true /\
  (drop (length (EEPROM.journal (EEPROM.filled xff)))
        (EEPROM.journal (device sketch_written))).*1 = seqZ 0 2.
Proof.
  assert (H1 : is_uint16 1) by (unfold is_uint16; lia).
  split; [exact sketch_store_reachable|]. split; [exact H1|]. split; [reflexivity|].
  exact (proj1 (proj2 (X11_write_rewrites_whole_record sketch_store (EEPROM.filled xff)
                         IIC_START [x42] 1 sketch_store_reachable H1 eq_refl))).
Defined.

(** X12. If the run of device writes of a successful [write] stops after
    [k >= 1] of its [maxSize + 1] writes, the device holds the valid marker
    (so [isFileValid] is already true), the first [k - 1] bytes of the new
    record image behind it, and beyond them what it held before. *)
Theorem X12_write_stopped_midway s dev ty data len :
  reachable s -> is_uint16 len ->
  succeeded (outcome (write s dev ty data len)) = true ->
  let f := record_of s ty in
  let w := write s dev ty data len in
  let n := Z.to_nat (maxSize f + 1) in
  device w = write_prefix dev (startAddr f) len data n /\
  forall k : nat, (1 <= k <= n)%nat ->
    let d := write_prefix dev (startAddr f) len data k in
    EEPROM.journal d `prefix_of` EEPROM.journal (device w) /\
    length (EEPROM.journal d) = (length (EEPROM.journal dev) + k)%nat /\
    isFileValid s d ty = true /\
    forall j, 0 <= j <= maxSize f ->
      EEPROM.read d (startAddr f + j) =
      if j <? Z.of_nat k then record_image data len j
      else EEPROM.read dev (startAddr f + j).
Proof.
  intros Hr Hlen Hok f w n.
  destruct (write_device_as_prefix s dev ty data len Hr Hlen Hok) as [Hb Hdev].
  destruct (write_succeeded_inv _ _ _ _ _ Hok) as (_ & Hidx & _ & _).
  fold f in Hb, Hdev. fold w n in Hdev.
  split; [exact Hdev|]. intros k Hk d.
  split; [rewrite Hdev; apply write_prefix_journal_prefix; lia|].
  split.
  { unfold d. rewrite write_prefix_journal, length_app, length_fmap, length_seqZ. lia. }
  split.
  - rewrite isFileValid_found by done. fold f. unfold EEPROM.read, d.
    replace (EEPROM.cells (write_prefix dev (startAddr f) len data k) (startAddr f))
      with (EEPROM.cells (write_prefix dev (startAddr f) len data k) (startAddr f + 0))
      by (by rewrite Z.add_0_r).
    rewrite write_prefix_inside by lia. reflexivity.
  - intros j Hj. unfold EEPROM.read, d.
    destruct (Z.ltb_spec j (Z.of_nat k)).
    + apply write_prefix_inside. lia.
    + apply write_prefix_outside. lia.
Qed.

(** The sketch's write to [USER_SETTINGS] (16 bytes of capacity), stopped
    after the marker and one payload byte. *)
Lemma X12_write_stopped_midway_witness :
  reachable sketch_store /\ is_uint16 2 /\
  succeeded (outcome (write sketch_store (EEPROM.filled x00) USER_SETTINGS
                        [x80; x32] 2)) = true /\
  isFileValid sketch_store
    (write_prefix (EEPROM.filled x00)
       (startAddr (record_of sketch_store USER_SETTINGS)) 2 [x80; x32] 2)
    USER_SETTINGS = true.
Proof.
  assert (H2 : is_uint16 2) by (unfold is_uint16; lia).
  assert (Hk : (1 <= 2 <= Z.to_nat (maxSize (record_of sketch_store USER_SETTINGS) + 1))%nat)
    by (vm_compute; lia).
  split; [exact sketch_store_reachable|]. split; [exact H2|]. split; [reflexivity|].
  exact (proj1 (proj2 (proj2 (proj2 (X12_write_stopped_midway sketch_store
            (EEPROM.filled x00) USER_SETTINGS [x80; x32] 2
            sketch_store_reachable H2 eq_refl) 2%nat Hk)))).
Defined.

(** ** What [read] depends on *)

(** [read] looks at the device at the marker and at the bytes it copies,
    nowhere else. *)
Lemma read_device_ext s dev dev' ty buf len :
  (findFileIndex s ty <> -1 ->
   EEPROM.read dev' (startAddr (record_of s ty)) =
     EEPROM.read dev (startAddr (record_of s ty)) /\
   forall j, 0 <= j < Z.min len (dataLen (record_of s ty)) ->
     EEPROM.read dev' (to_uint16 (startAddr (record_of s ty) + 1) + j) =
     EEPROM.read dev (to_uint16 (startAddr (record_of s ty) + 1) + j)) ->
  read s dev' ty buf len = read s dev ty buf len.
Proof.
  intros Hsame. unfold read, record_of in *.
  destruct (negb (is_enabled s)); [done|]. cbn zeta.
  destruct (Z.eqb_spec (findFileIndex s ty) (-1)) as [|Hidx]; [done|].
  destruct (negb (enabled _)); [done|].
  destruct (Hsame Hidx) as [Hmark Hdata]. rewrite Hmark.
  destruct (negb (Byte.eqb _ x01)); [done|]. f_equal.
  unfold for_range.
  apply (fill_loop_ext
           (fun i => EEPROM.read dev'
                       (to_uint16 (startAddr (file_at s (findFileIndex s ty)) + 1) + i))
           (fun i => EEPROM.read dev
                       (to_uint16 (startAddr (file_at s (findFileIndex s ty)) + 1) + i))).
  intros j Hj. apply Hdata.
  destruct (Z.ltb_spec len (dataLen (file_at s (findFileIndex s ty)))); lia.
Qed.

(** [read] and [isFileValid] look at the table at the store switch, at the
    lookup and at the one descriptor found. *)
Lemma read_table_ext s s' dev ty buf len :
  is_enabled s' = is_enabled s ->
  findFileIndex s' ty = findFileIndex s ty ->
  record_of s' ty = record_of s ty ->
  read s' dev ty buf len = read s dev ty buf len.
Proof.
  unfold record_of. intros He Hf Hrec. unfold read. cbn zeta.
  rewrite He, Hf. rewrite Hf in Hrec. by rewrite Hrec.
Qed.

Lemma isFileValid_table_ext s s' dev ty :
  findFileIndex s' ty = findFileIndex s ty ->
  record_of s' ty = record_of s ty ->
  isFileValid s' dev ty = isFileValid s dev ty.
Proof.
  unfold record_of. intros Hf Hrec. unfold isFileValid. cbn zeta.
  rewrite Hf. rewrite Hf in Hrec. by rewrite Hrec.
Qed.

(** X13. While [dataLen] of a record is 0 -- from its registration, or
    its last [erase], until a [write] succeeds -- a [read] of it that finds
    the marker valid returns true and copies nothing, whatever payload the
    device holds and however many bytes are asked for.  The length is kept
    in the table only, so a payload written before a restart is not handed
    back. *)
Theorem X13_read_copies_nothing_before_a_write s dev ty buf len :
  is_enabled s = true ->
  findFileIndex s ty <> -1 ->
  enabled (record_of s ty) = true ->
  getFileDataLen s ty = 0 ->
  EEPROM.read dev (startAddr (record_of s ty)) = x01 ->
  isFileValid s dev ty = true /\
  read s dev ty buf len = (Done, buf).
Proof.
  intros He Hidx Hen Hlen Hmark. rewrite getFileDataLen_found in Hlen by done.
  split; [rewrite isFileValid_found by done; by rewrite Hmark|].
  rewrite read_passes by done. rewrite Hlen. unfold for_range.
  replace (Z.to_nat (Z.min len 0 - 0)) with 0%nat by lia. reflexivity.
Qed.

(** After a restart of the sketch (same registrations, fresh table) on the
    device its first run left behind: the marker of [IIC_START] is valid,
    the byte [0x42] is there, and [read] hands back nothing. *)
Lemma X13_read_copies_nothing_before_a_write_witness :
  is_enabled sketch_store = true /\
  findFileIndex sketch_store IIC_START <> -1 /\
  enabled (record_of sketch_store IIC_START) = true /\
  getFileDataLen sketch_store IIC_START = 0 /\
  EEPROM.read (device sketch_written) (startAddr (record_of sketch_store IIC_START)) = x01 /\
  EEPROM.read (device sketch_written) 1 = x42 /\
  read sketch_store (device sketch_written) IIC_START [x00] 1 = (Done, [x00]).
Proof.
  assert (Hidx : findFileIndex sketch_store IIC_START <> -1) by (vm_compute; discriminate).
  split; [reflexivity|]. split; [exact Hidx|].
  split; [reflexivity|]. split; [reflexivity|]. split; [reflexivity|].
  split; [reflexivity|].
  exact (proj2 (X13_read_copies_nothing_before_a_write sketch_store (device sketch_written)
                  IIC_START [x00] 1 eq_refl Hidx eq_refl eq_refl eq_refl)).
Defined.

(** ** Marking invalid and valid again *)

(** X18. [setFileValid(type, false)] makes every [read] of an enabled
    record of an enabled store return false at the marker check, buffer
    untouched; [setFileValid(type, true)] after it puts the device back
    byte for byte as it was if the marker was valid before, so [read]
    returns again exactly what it returned before. *)
Theorem X18_invalidate_then_revalidate s dev ty :
  findFileIndex s ty <> -1 ->
  let f := record_of s ty in
  let d0 := device (setFileValid s dev ty false) in
  let d1 := device (setFileValid s d0 ty true) in
  isFileValid s d0 ty = false /\
  (is_enabled s = true -> enabled f = true ->
   forall buf n, read s d0 ty buf n = (DataInvalid, buf)) /\
  (EEPROM.read dev (startAddr f) = x01 ->
   (forall a, EEPROM.read d1 a = EEPROM.read dev a) /\
   (forall buf n, read s d1 ty buf n = read s dev ty buf n)).
Proof.
  intros Hidx f d0 d1.
  assert (H0 : d0 = EEPROM.write dev (startAddr f) x00)
    by (unfold d0; by rewrite setFileValid_found).
  assert (H1 : d1 = EEPROM.write d0 (startAddr f) x01)
    by (unfold d1; by rewrite setFileValid_found).
  assert (Hm0 : EEPROM.read d0 (startAddr f) = x00)
    by (rewrite H0; apply EEPROM_read_write_eq).
  split; [rewrite isFileValid_found by done; fold f; by rewrite Hm0|].
  split.
  - intros He Hen buf n. rewrite read_after_invalid; fold f; try done.
    + by rewrite Hen.
    + by rewrite Hm0.
  - intros Hmark.
    assert (Hall : forall a, EEPROM.read d1 a = EEPROM.read dev a).
    { intros a. rewrite H1. destruct (Z.eq_dec a (startAddr f)) as [->|Hne].
      - by rewrite EEPROM_read_write_eq.
      - rewrite EEPROM_read_write_ne by done. rewrite H0.
        by apply EEPROM_read_write_ne. }
    split; [exact Hall|]. intros buf n. apply read_device_ext.
    intros _. split; [apply Hall | intros j _; apply Hall].
Qed.

(** Fencing the byte the sketch wrote. *)
Lemma X18_invalidate_then_revalidate_witness :
  findFileIndex (store sketch_written) IIC_START <> -1 /\
  isFileValid (store sketch_written)
    (device (setFileValid (store sketch_written) (device sketch_written) IIC_START false))
    IIC_START = false.
Proof.
  assert (Hidx : findFileIndex (store sketch_written) IIC_START <> -1)
    by (vm_compute; discriminate).
  split; [exact Hidx|].
  exact (proj1 (X18_invalidate_then_revalidate (store sketch_written)
                  (device sketch_written) IIC_START Hidx)).
Defined.

(** ** Records do not disturb each other (sizes that do not wrap) *)

Lemma distinct_ids_distinct_slots s ty ty' :
  findFileIndex s ty <> -1 -> findFileIndex s ty' <> -1 -> ty' <> ty ->
  findFileIndex s ty' <> findFileIndex s ty.
Proof.
  intros H1 H2 Hne Heq.
  destruct (findFileIndex_found s ty H1) as [_ Ht].
  destruct (findFileIndex_found s ty' H2) as [_ Ht'].
  rewrite Heq in Ht'. congruence.
Qed.

(** The bytes of one record lie outside the range another record's
    [write] touches. *)
Lemma regions_apart s i j :
  reachable s -> plain_sizes s ->
  0 <= i < fileCount s -> 0 <= j < fileCount s -> i <> j ->
  forall a, startAddr (file_at s j) <= a <= startAddr (file_at s j) + maxSize (file_at s j) ->
    a < startAddr (file_at s i) \/ startAddr (file_at s i) + maxSize (file_at s i) < a.
Proof.
  intros Hr Hplain Hi Hj Hne a Ha.
  destruct (layout_contiguous s Hr Hplain) as (_ & _ & Hend).
  destruct (Hend i Hi) as [Hei _]. destruct (Hend j Hj) as [Hej _].
  destruct (Z.lt_trichotomy i j) as [Hlt|[Heq|Hgt]]; [|done|].
  - pose proof (layout_disjoint s Hr Hplain i j ltac:(lia) ltac:(lia)). lia.
  - pose proof (layout_disjoint s Hr Hplain j i ltac:(lia) ltac:(lia)). lia.
Qed.

(** Replacing the descriptor of [ty] by one with the same identifier does
    not change what the table says about another identifier. *)
Lemma set_file_other_record s ty ty' g :
  findFileIndex s ty <> -1 -> findFileIndex s ty' <> -1 -> ty' <> ty ->
  type g = type (record_of s ty) ->
  findFileIndex (set_file s (findFileIndex s ty) g) ty' = findFileIndex s ty' /\
  record_of (set_file s (findFileIndex s ty) g) ty' = record_of s ty'.
Proof.
  intros H1 H2 Hne Hty.
  assert (Hf : findFileIndex (set_file s (findFileIndex s ty) g) ty' = findFileIndex s ty')
    by (by apply findFileIndex_set_file).
  split; [exact Hf|]. unfold record_of. rewrite Hf.
  apply file_at_set_file_ne.
  pose proof (distinct_ids_distinct_slots s ty ty' H1 H2 Hne).
  destruct (findFileIndex_found s ty H1) as [? _].
  destruct (findFileIndex_found s ty' H2) as [? _]. lia.
Qed.

(** A device change confined to the range of one record is invisible
    through another record. *)
Lemma other_record_frame s dev dev' ty ty' :
  reachable s -> plain_sizes s ->
  findFileIndex s ty <> -1 -> findFileIndex s ty' <> -1 -> ty' <> ty ->
  (forall a, a < startAddr (record_of s ty) \/
             startAddr (record_of s ty) + maxSize (record_of s ty) < a ->
     EEPROM.read dev' a = EEPROM.read dev a) ->
  (forall a, startAddr (record_of s ty') <= a <= endAddr (record_of s ty') ->
     EEPROM.read dev' a = EEPROM.read dev a) /\
  isFileValid s dev' ty' = isFileValid s dev ty' /\
  (forall buf n, read s dev' ty' buf n = read s dev ty' buf n).
Proof.
  intros Hr Hplain H1 H2 Hne Hout.
  destruct (findFileIndex_found s ty H1) as [Hi _].
  destruct (findFileIndex_found s ty' H2) as [Hj _].
  pose proof (distinct_ids_distinct_slots s ty ty' H1 H2 Hne) as Hslots.
  destruct (layout_contiguous s Hr Hplain) as (_ & _ & Hend).
  destruct (Hend _ Hj) as [Hej _]. fold (record_of s ty') in Hej.
  destruct (reachable_record_ok s ty' Hr H2) as [Hdesc _]. fold (record_of s ty') in Hdesc.
  pose proof (desc_ok_dataAddr _ Hdesc) as Hda.
  pose proof (ok_dataLen _ Hdesc) as Hdl. pose proof (ok_maxSize _ Hdesc) as Hms.
  assert (Hin : forall a, startAddr (record_of s ty') <= a <=
                          startAddr (record_of s ty') + maxSize (record_of s ty') ->
                  EEPROM.read dev' a = EEPROM.read dev a).
  { intros a Ha. apply Hout. apply (regions_apart s _ (findFileIndex s ty')); first [done | lia]. }
  unfold is_uint16 in Hms.
  split; [intros a Ha; apply Hin; lia|]. split.
  - rewrite !isFileValid_found by done. rewrite Hin by lia. reflexivity.
  - intros buf n. apply read_device_ext. intros _.
    split; [apply Hin; lia|]. intros j Hjr. rewrite Hda. apply Hin. lia.
Qed.

(** X14. On a table without the size 65535, a successful [write] to one
    record changes nothing about another: its descriptor, the device bytes
    of its region, what [isFileValid] says of it and what [read] returns
    for it are all as before. *)
Theorem X14_write_leaves_other_records s dev ty ty' data len :
  reachable s -> plain_sizes s -> is_uint16 len ->
  succeeded (outcome (write s dev ty data len)) = true ->
  findFileIndex s ty' <> -1 -> ty' <> ty ->
  let w := write s dev ty data len in
  record_of (store w) ty' = record_of s ty' /\
  (forall a, startAddr (record_of s ty') <= a <= endAddr (record_of s ty') ->
     EEPROM.read (device w) a = EEPROM.read dev a) /\
  isFileValid (store w) (device w) ty' = isFileValid s dev ty' /\
  (forall buf n, read (store w) (device w) ty' buf n = read s dev ty' buf n).
Proof.
  intros Hr Hplain Hlen Hok H2 Hne w.
  destruct (write_succeeded_inv _ _ _ _ _ Hok) as (He & H1 & Hen & Hmax).
  destruct (other_record_frame s dev (device w) ty ty' Hr Hplain H1 H2 Hne)
    as (Hbytes & Hvalid & Hread).
  { intros a Ha. by apply (write_frame s dev ty data len Hr Hlen Hok). }
  assert (Hst : store w = set_file s (findFileIndex s ty)
                            (with_write (record_of s ty) len))
    by (unfold w; by rewrite write_reachable).
  destruct (set_file_other_record s ty ty' (with_write (record_of s ty) len) H1 H2 Hne
              eq_refl) as [Hf Hrec].
  rewrite <- Hst in Hf, Hrec.
  split; [exact Hrec|]. split; [exact Hbytes|]. split.
  - rewrite <- Hvalid. by apply isFileValid_table_ext.
  - intros buf n. rewrite <- Hread. apply read_table_ext; try done.
    by rewrite Hst.
Qed.

(** Writing [KAL_MAN] after the sketch's first write leaves [IIC_START]
    readable as before. *)
Lemma X14_write_leaves_other_records_witness :
  reachable (store sketch_written) /\ is_uint16 4 /\
  succeeded (outcome (write (store sketch_written) (device sketch_written) KAL_MAN
                        [x0a; x0b; x0c; x0d] 4)) = true /\
  read (store (write (store sketch_written) (device sketch_written) KAL_MAN
                 [x0a; x0b; x0c; x0d] 4))
       (device (write (store sketch_written) (device sketch_written) KAL_MAN
                  [x0a; x0b; x0c; x0d] 4))
       IIC_START [x00] 1
  = read (store sketch_written) (device sketch_written) IIC_START [x00] 1.
Proof.
  assert (H4 : is_uint16 4) by (unfold is_uint16; lia).
  assert (Hplain : plain_sizes (store sketch_written)).
  { intros i Hi. change (fileCount (store sketch_written)) with 3 in Hi.
    assert (Hcases : i = 0 \/ i = 1 \/ i = 2) by lia.
    destruct Hcases as [-> | [-> | ->]]; vm_compute; discriminate. }
  assert (Hidx : findFileIndex (store sketch_written) IIC_START <> -1)
    by (vm_compute; discriminate).
  assert (Hne : IIC_START <> KAL_MAN) by (vm_compute; discriminate).
  split; [exact sketch_written_reachable|]. split; [exact H4|]. split; [reflexivity|].
  exact (proj2 (proj2 (proj2 (X14_write_leaves_other_records (store sketch_written)
            (device sketch_written) KAL_MAN IIC_START [x0a; x0b; x0c; x0d] 4
            sketch_written_reachable Hplain H4 eq_refl Hidx Hne))) [x00] 1).
Defined.

(** X15. On a table without the size 65535, [erase] and [setFileValid]
    on one record change nothing about another: its descriptor, what
    [isFileValid] says of it and what [read] returns for it are as
    before. *)
Theorem X15_marker_changes_leave_other_records s dev ty ty' v :
  reachable s -> plain_sizes s ->
  findFileIndex s ty <> -1 -> findFileIndex s ty' <> -1 -> ty' <> ty ->
  let e := erase s dev ty in
  let m := setFileValid s dev ty v in
  (succeeded (outcome e) = true ->
   record_of (store e) ty' = record_of s ty' /\
   isFileValid (store e) (device e) ty' = isFileValid s dev ty' /\
   (forall buf n, read (store e) (device e) ty' buf n = read s dev ty' buf n)) /\
  (store m = s /\
   isFileValid (store m) (device m) ty' = isFileValid s dev ty' /\
   (forall buf n, read (store m) (device m) ty' buf n = read s dev ty' buf n)).
Proof.
  intros Hr Hplain H1 H2 Hne e m.
  destruct (reachable_record_ok s ty Hr H1) as [Hdesc _]. fold (record_of s ty) in Hdesc.
  pose proof (ok_maxSize _ Hdesc) as Hms. unfold is_uint16 in Hms.
  assert (Hmarker : forall b a,
            a < startAddr (record_of s ty) \/
            startAddr (record_of s ty) + maxSize (record_of s ty) < a ->
            EEPROM.read (EEPROM.write dev (startAddr (record_of s ty)) b) a
            = EEPROM.read dev a).
  { intros b a Ha. apply EEPROM_read_write_ne. lia. }
  split.
  - intros Hok. destruct (erase_succeeded_inv _ _ _ Hok) as (He & _ & Heq).
    fold e in Heq.
    destruct (other_record_frame s dev (device e) ty ty' Hr Hplain H1 H2 Hne)
      as (_ & Hvalid & Hread).
    { rewrite Heq. cbn [device]. apply Hmarker. }
    destruct (set_file_other_record s ty ty' (with_erase (record_of s ty)) H1 H2 Hne
                eq_refl) as [Hf Hrec].
    assert (Hst : store e = set_file s (findFileIndex s ty) (with_erase (record_of s ty)))
      by (by rewrite Heq).
    rewrite <- Hst in Hf, Hrec.
    split; [exact Hrec|]. split.
    + rewrite <- Hvalid. by apply isFileValid_table_ext.
    + intros buf n. rewrite <- Hread. apply read_table_ext; try done. by rewrite Hst.
  - unfold m. rewrite setFileValid_found by done. cbn [store device].
    destruct (other_record_frame s dev
                (EEPROM.write dev (startAddr (record_of s ty)) (if v then x01 else x00))
                ty ty' Hr Hplain H1 H2 Hne (Hmarker _)) as (_ & Hvalid & Hread).
    done.
Qed.

(** Erasing [KAL_MAN] after the sketch's first write. *)
Lemma X15_marker_changes_leave_other_records_witness :
  reachable (store sketch_written) /\
  findFileIndex (store sketch_written) KAL_MAN <> -1 /\
  findFileIndex (store sketch_written) IIC_START <> -1 /\
  succeeded (outcome (erase (store sketch_written) (device sketch_written) KAL_MAN)) = true /\
  isFileValid (store (erase (store sketch_written) (device sketch_written) KAL_MAN))
              (device (erase (store sketch_written) (device sketch_written) KAL_MAN))
              IIC_START
  = isFileValid (store sketch_written) (device sketch_written) IIC_START.
Proof.
  assert (Hplain : plain_sizes (store sketch_written)).
  { intros i Hi. change (fileCount (store sketch_written)) with 3 in Hi.
    assert (Hcases : i = 0 \/ i = 1 \/ i = 2) by lia.
    destruct Hcases as [-> | [-> | ->]]; vm_compute; discriminate. }
  assert (H1 : findFileIndex (store sketch_written) KAL_MAN <> -1)
    by (vm_compute; discriminate).
  assert (H2 : findFileIndex (store sketch_written) IIC_START <> -1)
    by (vm_compute; discriminate).
  assert (Hne : IIC_START <> KAL_MAN) by (vm_compute; discriminate).
  split; [exact sketch_written_reachable|]. split; [exact H1|]. split; [exact H2|].
  split; [reflexivity|].
  exact (proj1 (proj2 (proj1 (X15_marker_changes_leave_other_records
            (store sketch_written) (device sketch_written) KAL_MAN IIC_START true
            sketch_written_reachable Hplain H1 H2 Hne) eq_refl))).
Defined.

(** ** The per-record switch and the modified flag *)

(** X16. For a registered identifier, [isFileEnabled] after
    [setFileEnabled(type, b)] is [b]; nothing else about the record, about
    its validity or about any other record changes; setting the switch back
    gives the table back; and while the switch is off, [write] and [read]
    on the record return false and change nothing. *)
Theorem X16_record_switch s ty b :
  reachable s -> findFileIndex s ty <> -1 ->
  let s1 := setFileEnabled s ty b in
  isFileEnabled s1 ty = b /\
  placement (record_of s1 ty) = placement (record_of s ty) /\
  getFileDataLen s1 ty = getFileDataLen s ty /\
  isFileModified s1 ty = isFileModified s ty /\
  (forall dev, isFileValid s1 dev ty = isFileValid s dev ty) /\
  (forall ty', ty' <> ty -> findFileIndex s ty' <> -1 ->
     record_of s1 ty' = record_of s ty') /\
  setFileEnabled s1 ty (enabled (record_of s ty)) = s /\
  (b = false -> forall dev data buf len,
     succeeded (outcome (write s1 dev ty data len)) = false /\
     store (write s1 dev ty data len) = s1 /\
     device (write s1 dev ty data len) = dev /\
     succeeded (read s1 dev ty buf len).1 = false /\
     (read s1 dev ty buf len).2 = buf).
Proof.
  intros Hr Hidx s1.
  destruct (reachable_record_ok s ty Hr Hidx) as [_ Hslot].
  assert (Hs1 : s1 = set_file s (findFileIndex s ty) (with_enabled (record_of s ty) b))
    by (unfold s1; by apply setFileEnabled_found).
  assert (Hf : findFileIndex s1 ty = findFileIndex s ty)
    by (rewrite Hs1; by apply findFileIndex_set_file).
  assert (Hrec : record_of s1 ty = with_enabled (record_of s ty) b)
    by (rewrite Hs1; by apply record_of_set_file).
  assert (Hidx1 : findFileIndex s1 ty <> -1) by (by rewrite Hf).
  rewrite isFileEnabled_found, getFileDataLen_found, isFileModified_found by done.
  rewrite (getFileDataLen_found s), (isFileModified_found s) by done.
  rewrite Hrec. cbn [enabled dataLen modified with_enabled].
  split; [reflexivity|]. split; [reflexivity|]. split; [reflexivity|].
  split; [reflexivity|]. split.
  { intros dev. rewrite !isFileValid_found by done. by rewrite Hrec. }
  split.
  { intros ty' Hne H2. rewrite Hs1.
    by apply (set_file_other_record s ty ty' (with_enabled (record_of s ty) b)). }
  split.
  { rewrite setFileEnabled_found by done. rewrite Hf, Hrec, Hs1, set_file_twice.
    replace (with_enabled (with_enabled (record_of s ty) b) (enabled (record_of s ty)))
      with (file_at s (findFileIndex s ty)); [apply set_file_same|].
    unfold record_of. by destruct (file_at s (findFileIndex s ty)). }
  intros -> dev data buf len.
  assert (Hoff : enabled (record_of s1 ty) = false) by (by rewrite Hrec).
  destruct (write_disabled_refused s1 dev ty data len Hidx1 Hoff) as (W1 & W2 & W3 & _).
  destruct (read_disabled_refused s1 dev ty buf len Hidx1 Hoff) as (R1 & R2 & _).
  done.
Qed.

Lemma X16_record_switch_witness :
  reachable sketch_store /\ findFileIndex sketch_store KAL_MAN <> -1 /\
  isFileEnabled (setFileEnabled sketch_store KAL_MAN false) KAL_MAN = false.
Proof.
  assert (Hidx : findFileIndex sketch_store KAL_MAN <> -1) by (vm_compute; discriminate).
  split; [exact sketch_store_reachable|]. split; [exact Hidx|].
  exact (proj1 (X16_record_switch sketch_store KAL_MAN false sketch_store_reachable Hidx)).
Defined.

(** Two tables that differ in [modified] fields only answer every
    operation alike. *)
Lemma operations_ignore_modified s s' ty dev data buf len :
  is_enabled s' = is_enabled s ->
  (forall t, findFileIndex s' t = findFileIndex s t) ->
  (forall j, with_modified_cleared (file_at s' j) = with_modified_cleared (file_at s j)) ->
  getFileDataLen s' ty = getFileDataLen s ty /\
  isFileEnabled s' ty = isFileEnabled s ty /\
  getFileAddr s' ty = getFileAddr s ty /\
  isFileValid s' dev ty = isFileValid s dev ty /\
  read s' dev ty buf len = read s dev ty buf len /\
  outcome (write s' dev ty data len) = outcome (write s dev ty data len) /\
  device (write s' dev ty data len) = device (write s dev ty data len) /\
  outcome (erase s' dev ty) = outcome (erase s dev ty) /\
  device (erase s' dev ty) = device (erase s dev ty).
Proof.
  intros He Hf Hfields.
  assert (Hdl : forall j, dataLen (file_at s' j) = dataLen (file_at s j))
    by (intros j; apply (f_equal dataLen (Hfields j))).
  assert (Hen : forall j, enabled (file_at s' j) = enabled (file_at s j))
    by (intros j; apply (f_equal enabled (Hfields j))).
  assert (Hst : forall j, startAddr (file_at s' j) = startAddr (file_at s j))
    by (intros j; apply (f_equal startAddr (Hfields j))).
  assert (Hms : forall j, maxSize (file_at s' j) = maxSize (file_at s j))
    by (intros j; apply (f_equal maxSize (Hfields j))).
  unfold getFileDataLen, isFileEnabled, getFileAddr, isFileValid, read, write, erase.
  cbn zeta. rewrite He, !Hf, !Hdl, !Hen, !Hst, !Hms.
  repeat split; try reflexivity.
  - destruct (negb (is_enabled s)); [done|].
    destruct (findFileIndex s ty =? -1); [done|].
    destruct (negb (enabled _)); [done|]. by destruct (len >? _).
  - destruct (negb (is_enabled s)); [done|].
    destruct (findFileIndex s ty =? -1); [done|].
    destruct (negb (enabled _)); [done|]. by destruct (len >? _).
  - destruct (negb (is_enabled s)); [done|]. by destruct (findFileIndex s ty =? -1).
  - destruct (negb (is_enabled s)); [done|]. by destruct (findFileIndex s ty =? -1).
Qed.

(** X17. [clearModifiedFlag] makes [isFileModified] false for a
    registered identifier and changes nothing that any other method reads:
    lookups, lengths, switches, addresses, validity, and the outcome and
    device effect of every [read], [write] and [erase] are the same with
    the flag cleared as with it set. *)
Theorem X17_modified_flag_is_advisory s ty0 ty dev data buf len :
  reachable s ->
  let s' := clearModifiedFlag s ty0 in
  (findFileIndex s ty0 <> -1 -> isFileModified s' ty0 = false) /\
  findFileIndex s' ty = findFileIndex s ty /\
  getFileDataLen s' ty = getFileDataLen s ty /\
  isFileEnabled s' ty = isFileEnabled s ty /\
  getFileAddr s' ty = getFileAddr s ty /\
  isFileValid s' dev ty = isFileValid s dev ty /\
  read s' dev ty buf len = read s dev ty buf len /\
  outcome (write s' dev ty data len) = outcome (write s dev ty data len) /\
  device (write s' dev ty data len) = device (write s dev ty data len) /\
  outcome (erase s' dev ty) = outcome (erase s dev ty) /\
  device (erase s' dev ty) = device (erase s dev ty).
Proof.
  intros Hr s'.
  assert (Hs' : s' = if findFileIndex s ty0 =? -1 then s
                     else set_file s (findFileIndex s ty0)
                            (with_modified_cleared (record_of s ty0))).
  { unfold s', clearModifiedFlag, record_of. cbn zeta.
    by destruct (findFileIndex s ty0 =? -1). }
  assert (Hf : forall t, findFileIndex s' t = findFileIndex s t).
  { intros t. rewrite Hs'. destruct (findFileIndex s ty0 =? -1); [done|].
    by apply findFileIndex_set_file. }
  assert (Hfields : forall j,
            with_modified_cleared (file_at s' j) = with_modified_cleared (file_at s j)).
  { intros j. rewrite Hs'. destruct (findFileIndex s ty0 =? -1); [done|].
    by apply (file_at_set_file_field with_modified_cleared). }
  assert (He : is_enabled s' = is_enabled s).
  { rewrite Hs'. by destruct (findFileIndex s ty0 =? -1). }
  split.
  - intros Hidx. destruct (reachable_record_ok s ty0 Hr Hidx) as [_ Hslot].
    rewrite isFileModified_found by (by rewrite Hf).
    rewrite Hs'. destruct (Z.eqb_spec (findFileIndex s ty0) (-1)); [done|].
    by rewrite record_of_set_file.
  - split; [apply Hf|]. by apply operations_ignore_modified.
Qed.

(** After the sketch's first write, [IIC_START] is modified until the
    flag is cleared. *)
Lemma X17_modified_flag_is_advisory_witness :
  reachable (store sketch_written) /\
  findFileIndex (store sketch_written) IIC_START <> -1 /\
  isFileModified (store sketch_written) IIC_START = true /\
  isFileModified (clearModifiedFlag (store sketch_written) IIC_START) IIC_START = false.
Proof.
  assert (Hidx : findFileIndex (store sketch_written) IIC_START <> -1)
    by (vm_compute; discriminate).
  split; [exact sketch_written_reachable|]. split; [exact Hidx|]. split; [reflexivity|].
  exact (proj1 (X17_modified_flag_is_advisory (store sketch_written) IIC_START IIC_START
                  (EEPROM.filled xff) [] [] 0 sketch_written_reachable) Hidx).
Defined.

(** ** The write-then-mark-valid idiom of the sketch *)

(** X19. In the idiom [EE_WRITE; EE_SET_VALID(true)] on a registered
    identifier the record always ends up marked valid.  When the write
    succeeded the second call changes no byte (the marker was already
    [0x01]).  When the write was refused -- too long, record or store
    switched off -- the table and every byte but the marker are as before
    the idiom, so the record is reported valid with whatever payload and
    length it had. *)
Theorem X19_write_and_validate s dev ty data len :
  reachable s -> is_uint16 len -> findFileIndex s ty <> -1 ->
  let w := write s dev ty data len in
  let r := write_and_validate s dev ty data len in
  isFileValid (store r) (device r) ty = true /\
  store r = store w /\
  (succeeded (outcome w) = true ->
   forall a, EEPROM.read (device r) a = EEPROM.read (device w) a) /\
  (succeeded (outcome w) = false ->
   store r = s /\
   getFileDataLen (store r) ty = getFileDataLen s ty /\
   forall a, a <> startAddr (record_of s ty) ->
     EEPROM.read (device r) a = EEPROM.read dev a).
Proof.
  intros Hr Hlen Hidx w r.
  assert (Hfw : findFileIndex (store w) ty = findFileIndex s ty /\
                startAddr (record_of (store w) ty) = startAddr (record_of s ty)).
  { destruct (succeeded (outcome w)) eqn:Ho.
    - unfold w in *. rewrite write_reachable by done. cbn [store].
      destruct (reachable_record_ok s ty Hr Hidx) as [_ Hslot].
      split; [by apply findFileIndex_set_file|]. by rewrite record_of_set_file.
    - unfold w in *. by rewrite (proj1 (write_failed_unchanged _ _ _ _ _ Ho)). }
  destruct Hfw as [Hf Hst].
  assert (Hidxw : findFileIndex (store w) ty <> -1) by (by rewrite Hf).
  assert (Hreq : r = mkEffect Done (store w)
                       (EEPROM.write (device w) (startAddr (record_of s ty)) x01)).
  { unfold r, write_and_validate. cbn zeta. fold w.
    rewrite setFileValid_found by done. by rewrite Hst. }
  rewrite Hreq. cbn [store device].
  split.
  { rewrite isFileValid_found by done. rewrite Hst.
    by rewrite EEPROM_read_write_eq. }
  split; [reflexivity|]. split.
  - intros Ho a. destruct (Z.eq_dec a (startAddr (record_of s ty))) as [->|Hne].
    + rewrite EEPROM_read_write_eq. unfold w in *.
      rewrite write_reachable by done. cbn [device]. unfold EEPROM.read.
      symmetry. apply store_record_marker.
      destruct (write_succeeded_inv _ _ _ _ _ Ho) as (_ & _ & _ & Hmax).
      unfold is_uint16 in Hlen. lia.
    + by apply EEPROM_read_write_ne.
  - intros Ho. destruct (write_failed_unchanged _ _ _ _ _ Ho) as [Hs Hd].
    fold w in Hs, Hd. rewrite Hs, Hd. split; [reflexivity|]. split; [reflexivity|].
    intros a Ha. by apply EEPROM_read_write_ne.
Qed.

(** The sketch's second example in bytes: an eight-byte struct offered to
    the four-byte [KAL_MAN] record, then marked valid. *)
Lemma X19_write_and_validate_witness :
  reachable sketch_store /\ is_uint16 8 /\
  findFileIndex sketch_store KAL_MAN <> -1 /\
  succeeded (outcome (write sketch_store (EEPROM.filled xff) KAL_MAN
                        [x0a; xd7; x23; x3c; x00; x00; x00; x3f] 8)) = false /\
  isFileValid
    (store (write_and_validate sketch_store (EEPROM.filled xff) KAL_MAN
              [x0a; xd7; x23; x3c; x00; x00; x00; x3f] 8))
    (device (write_and_validate sketch_store (EEPROM.filled xff) KAL_MAN
               [x0a; xd7; x23; x3c; x00; x00; x00; x3f] 8))
    KAL_MAN = true.
Proof.
  assert (H8 : is_uint16 8) by (unfold is_uint16; lia).
  assert (Hidx : findFileIndex sketch_store KAL_MAN <> -1) by (vm_compute; discriminate).
  split; [exact sketch_store_reachable|]. split; [exact H8|]. split; [exact Hidx|].
  split; [reflexivity|].
  exact (proj1 (X19_write_and_validate sketch_store (EEPROM.filled xff) KAL_MAN
                  [x0a; xd7; x23; x3c; x00; x00; x00; x3f] 8
                  sketch_store_reachable H8 Hidx)).
Defined.

(** ** Registering again, and the size that is charged nothing *)

(** X20. Once an identifier has been registered, every further
    [registerAuto] of it is refused, whatever the size, and leaves the
    table as it is. *)
Theorem X20_register_twice s ty maxSz maxSz' :
  reachable s ->
  (registerAuto s ty maxSz).1 = Done ->
  let s' := (registerAuto s ty maxSz).2 in
  succeeded (registerAuto s' ty maxSz').1 = false /\
  (registerAuto s' ty maxSz').2 = s' /\
  (fileCount s' < EEFILE_MAX_FILES -> (registerAuto s' ty maxSz').1 = AlreadyRegistered).
Proof.
  intros Hr Hdone s'. pose proof (reachable_table_ok s Hr) as Hok.
  pose proof (ok_count s Hok) as Hc.
  assert (Hf : findFileIndex s' ty <> -1).
  { unfold s'. rewrite registerAuto_found_at by done. lia. }
  destruct (Z_lt_ge_dec (fileCount s') EEFILE_MAX_FILES) as [Hroom|Hfull].
  - rewrite registerAuto_duplicate by done. by cbn.
  - rewrite registerAuto_full by done. cbn. repeat split; first [done | lia].
Qed.

Lemma X20_register_twice_witness :
  reachable sketch_store /\
  (registerAuto sketch_store END 8).1 = Done /\
  (registerAuto (registerAuto sketch_store END 8).2 END 2).1 = AlreadyRegistered.
Proof.
  split; [exact sketch_store_reachable|]. split; [reflexivity|].
  apply (proj2 (proj2 (X20_register_twice sketch_store END 8 2
                         sketch_store_reachable eq_refl))).
  vm_compute. reflexivity.
Defined.

(** X21. A registration with [maxSize = 65535] is charged zero bytes:
    it is admitted whenever the table has a free slot and the identifier is
    new, however full the region is, and the next free address after it is
    the one before it, so the record registered next starts at the same
    address. *)
Theorem X21_size_65535_is_charged_nothing s ty :
  reachable s ->
  fileCount s < EEFILE_MAX_FILES ->
  findFileIndex s ty = -1 ->
  let s' := (registerAuto s ty 65535).2 in
  (registerAuto s ty 65535).1 = Done /\
  startAddr (record_of s' ty) = calculateNextAddr s /\
  maxSize (record_of s' ty) = 65535 /\
  calculateNextAddr s' = calculateNextAddr s /\
  forall ty' maxSz',
    (registerAuto s' ty' maxSz').1 = Done ->
    startAddr (record_of (registerAuto s' ty' maxSz').2 ty') = startAddr (record_of s' ty).
Proof.
  intros Hr Hroom Hnone s'. pose proof (reachable_table_ok s Hr) as Hok.
  pose proof (ok_count s Hok) as Hc.
  pose proof (calculateNextAddr_range s Hok) as Hrange.
  assert (Hdone : (registerAuto s ty 65535).1 = Done).
  { rewrite registerAuto_admits; [done | done | done |].
    change (to_uint16 (65535 + 1)) with 0. lia. }
  assert (Hr' : reachable s')
    by (apply reach_registerAuto; [done | unfold is_uint16; lia]).
  pose proof (reachable_table_ok s' Hr') as Hok'.
  destruct (registerAuto_done_inv s ty 65535 Hok Hdone)
    as (_ & _ & _ & Hcnt & _ & _ & Hat).
  fold s' in Hcnt, Hat.
  assert (Hfind : findFileIndex s' ty = fileCount s)
    by (by apply registerAuto_found_at).
  assert (Hrec : record_of s' ty =
                 {| type := ty; maxSize := 65535; startAddr := calculateNextAddr s;
                    endAddr := to_uint16 (calculateNextAddr s + to_uint16 (65535 + 1) - 1);
                    dataLen := 0; enabled := true; modified := false |}).
  { unfold record_of. rewrite Hfind, Hat by lia. by rewrite Z.eqb_refl. }
  assert (Hnext : calculateNextAddr s' = calculateNextAddr s).
  { unfold calculateNextAddr at 1. rewrite Hcnt.
    destruct (Z.eqb_spec (fileCount s + 1) 0); [lia|]. cbn zeta.
    replace (fileCount s + 1 - 1) with (fileCount s) by lia.
    rewrite Hat by lia. rewrite Z.eqb_refl. cbn [endAddr].
    rewrite next_after_end; [change (to_uint16 (65535 + 1)) with 0; lia | lia | |].
    - unfold is_uint16. lia.
    - change (to_uint16 (65535 + 1)) with 0. rewrite EEFILE_TOTAL_SIZE_eq in Hrange. lia. }
  split; [exact Hdone|]. rewrite Hrec. cbn [startAddr maxSize].
  split; [reflexivity|]. split; [reflexivity|]. split; [exact Hnext|].
  intros ty' m' Hdone'.
  destruct (registerAuto_done_inv s' ty' m' Hok' Hdone')
    as (_ & _ & _ & Hcnt' & _ & _ & Hat').
  unfold record_of. rewrite registerAuto_found_at by done.
  pose proof (ok_count s' Hok') as Hc'.
  rewrite Hat' by lia. rewrite Z.eqb_refl. cbn [startAddr]. exact Hnext.
Qed.

(** On the sketch's table: a 65535-byte record is admitted at 24, and the
    record registered after it starts at 24 as well. *)
Lemma X21_size_65535_is_charged_nothing_witness :
  reachable sketch_store /\
  fileCount sketch_store < EEFILE_MAX_FILES /\
  findFileIndex sketch_store END = -1 /\
  (registerAuto sketch_store END 65535).1 = Done /\
  calculateNextAddr (registerAuto sketch_store END 65535).2 = calculateNextAddr sketch_store.
Proof.
  assert (Hroom : fileCount sketch_store < EEFILE_MAX_FILES) by (vm_compute; reflexivity).
  split; [exact sketch_store_reachable|]. split; [exact Hroom|]. split; [reflexivity|].
  pose proof (X21_size_65535_is_charged_nothing sketch_store END sketch_store_reachable
                Hroom eq_refl) as H.
  split; [exact (proj1 H) | exact (proj1 (proj2 (proj2 (proj2 H))))].
Defined.
